(** * list.py: listing the RIPE Atlas probes

    A shallow embedding of [list.py]: the classes [Tag], [Status], [Point],
    [Geometry] and [Probe] that normalise one raw record of the API, the
    generators [get_probe_data] and [get_probes] that follow the pages of the
    catalogue, and the loop of [main] that writes one line per probe.

    Python values are dynamically typed and so is the embedding: one type
    [value] holds what the JSON decoder returns and the instances the classes
    build; an instance is the finite map of its slots.  Exceptions are the
    [Raise] results of an error monad. *)

From Stdlib Require Import ZArith Strings.Ascii Strings.String.
From Stdlib Require Import Floats.PrimFloat Floats.FloatOps Floats.SpecFloat.
From stdpp Require Import base strings gmap list pretty.

Local Open Scope Z_scope.

(** ** Exceptions and results *)

(** The exceptions the program can meet.  [HTTPError] carries the status code
    of the response, [KeyError] the missing key; [RequestException] stands
    for a failure of the transport under [requests.get]; [UnicodeEncodeError]
    is what the write of a text to the utf-8 file raises. *)
Inductive exn :=
| AttributeError
| TypeError
| KeyError (k : string)
| ValueError
| HTTPError (code : Z)
| RequestException
| UnicodeEncodeError.

Inductive result (A : Type) :=
| Ok (a : A)
| Raise (e : exn).
Arguments Ok {A} a.
Arguments Raise {A} e.

Definition result_bind {A B : Type} (f : A → result B) (m : result A) : result B :=
  match m with
  | Ok a => f a
  | Raise e => Raise e
  end.

#[global] Instance result_mret : MRet result := @Ok.
#[global] Instance result_mbind : MBind result := @result_bind.

Definition is_Ok {A : Type} (m : result A) : Prop := ∃ a, m = Ok a.
Definition is_Raise {A : Type} (m : result A) : Prop := ∃ e, m = Raise e.

Definition succeeds {A : Type} (m : result A) : bool :=
  match m with
  | Ok _ => true
  | Raise _ => false
  end.

(** [mapM f l] runs [f] on the elements from left to right and stops at the
    first exception, as a list comprehension does. *)
Fixpoint mapM {A B : Type} (f : A → result B) (l : list A) : result (list B) :=
  match l with
  | [] => Ok []
  | a :: l' => b ← f a; bs ← mapM f l'; Ok (b :: bs)
  end.

(** ** Values *)

Inductive cls := CTag | CStatus | CPoint | CGeometry | CProbe.

(** What a variable of the program can hold: the values of a decoded JSON
    body ([None], booleans, integers, binary64 floats, strings, lists, and
    dicts with string keys) and the instances of the five classes.  A dict is
    the list of its items in insertion order; the keys of a dict are pairwise
    distinct.  A string is its text in UTF-8; a surrogate code point, which
    the JSON decoder returns for an escape that has no pair, is held as the
    three bytes of its code point (ED, then A0 to BF, then 80 to BF). *)
#[warnings="-register-all"]
Inductive value :=
| VNone
| VBool (b : bool)
| VInt (n : Z)
| VFloat (f : float)
| VStr (s : string)
| VList (l : list value)
| VDict (d : list (string * value))
| VObj (c : cls) (attrs : gmap string value).

(** Truth value of an object in a condition: [if v:], [not v]. *)
Definition truthy (v : value) : bool :=
  match v with
  | VNone => false
  | VBool b => b
  | VInt n => negb (n =? 0)
  | VFloat f => negb (PrimFloat.eqb f 0%float)
  | VStr s => negb (String.eqb s "")
  | VList l => match l with [] => false | _ => true end
  | VDict d => match d with [] => false | _ => true end
  | VObj _ _ => true
  end.

(** [d[k]] on the items of a dict; the dict built from a list of items holds,
    at a key, the value of the last item with that key. *)
Fixpoint dict_get (k : string) (d : list (string * value)) : option value :=
  match d with
  | [] => None
  | (k', v) :: d' =>
    match dict_get k d' with
    | Some w => Some w
    | None => if decide (k' = k) then Some v else None
    end
  end.

(** The keys of a dict in insertion order. *)
Fixpoint dict_keys (d : list (string * value)) : list string :=
  match d with
  | [] => []
  | (k, _) :: d' => k :: filter (λ k', k' ≠ k) (dict_keys d')
  end.

(** [v[k]] for a string literal [k]: only a dict can be indexed by a
    string. *)
Definition subscript (v : value) (k : string) : result value :=
  match v with
  | VDict d =>
    match dict_get k d with
    | Some w => Ok w
    | None => Raise (KeyError k)
    end
  | _ => Raise TypeError
  end.

(** The characters of a string: a byte of the form 10xxxxxx continues the
    character before it. *)
Definition is_continuation (a : ascii) : bool :=
  let n := Z.of_nat (nat_of_ascii a) in (128 <=? n) && (n <? 192).

Definition continues (s : string) : bool :=
  match s with
  | String b _ => is_continuation b
  | EmptyString => false
  end.

Fixpoint chars (s : string) : list string :=
  match s with
  | EmptyString => []
  | String a s' =>
    match chars s' with
    | piece :: ps =>
      if continues s' then String a piece :: ps
      else String a EmptyString :: piece :: ps
    | [] => [String a EmptyString]
    end
  end.

(** The elements a [for] loop or a [*] unpacking draws from an object. *)
Definition iter (v : value) : result (list value) :=
  match v with
  | VList l => Ok l
  | VStr s => Ok (VStr <$> chars s)
  | VDict d => Ok (VStr <$> dict_keys d)
  | _ => Raise TypeError
  end.

(** The keyword arguments of a call that unpacks [v] with a double star into
    a constructor whose first parameter is [self]: [v] has to be a mapping,
    and no key may be named [self]. *)
Definition star_star (v : value) : result (list (string * value)) :=
  match v with
  | VDict d => if decide ("self" ∈ d.*1) then Raise TypeError else Ok d
  | _ => Raise TypeError
  end.

(** ** Instances with slots *)

(** [setattr(self, k, v)] on an instance of a class with [__slots__]: a slot
    is written; [__class__] only takes a class; no other name can be set. *)
Definition setattr (slots : list string) (k : string) (v : value)
    (o : gmap string value) : result (gmap string value) :=
  if decide (k ∈ slots) then Ok (<[k:=v]> o)
  else if decide (k = "__class__") then Raise TypeError
  else Raise AttributeError.

(** [for attrib in self.__slots__: setattr(self, attrib, '')] *)
Definition default_fill (slots : list string) : gmap string value :=
  foldr (λ a o, <[a:=VStr ""]> o) ∅ slots.

(** [for k, v in kwargs.items(): setattr(self, k, v)] *)
Fixpoint setattrs (slots : list string) (kwargs : list (string * value))
    (o : gmap string value) : result (gmap string value) :=
  match kwargs with
  | [] => Ok o
  | (k, v) :: kwargs' => o' ← setattr slots k v o; setattrs slots kwargs' o'
  end.

(** Reading a slot: a slot that was never written raises. *)
Definition slot (o : gmap string value) (k : string) : result value :=
  match o !! k with
  | Some v => Ok v
  | None => Raise AttributeError
  end.

(** [v.k] at the name [k] of a slot, the only names the program reads: an
    instance answers with what the slot holds, a value of the JSON decoder
    has no such attribute.  The attributes every object has ([__class__],
    [__doc__] and the like) are not modelled. *)
Definition getattr (v : value) (k : string) : result value :=
  match v with
  | VObj _ o => slot o k
  | _ => Raise AttributeError
  end.

(** ** The classes *)

Definition Tag_slots : list string := ["name"; "slug"].

Definition Tag_init (name slug : value) : result value :=
  Ok (VObj CTag (<["slug":=slug]> (<["name":=name]> ∅))).

Definition Status_slots : list string := ["since"; "id"; "name"].

Definition Status_init (kwargs : list (string * value)) : result value :=
  o ← setattrs Status_slots kwargs (default_fill Status_slots);
  Ok (VObj CStatus o).

Definition Point_slots : list string := ["x"; "y"; "lat"; "lng"].

(** [self.x, self.y = coords] needs exactly two elements. *)
Definition Point_init (coords : list value) : result value :=
  match coords with
  | [x; y] =>
    let o : gmap string value := <["y":=y]> (<["x":=x]> ∅) in
    y' ← slot o "y";
    x' ← slot o "x";
    Ok (VObj CPoint (<["lng":=x']> (<["lat":=y']> o)))
  | _ => Raise ValueError
  end.

Definition Geometry_slots : list string := ["coordinates"; "type"].

Definition Geometry_init (kwargs : list (string * value)) : result value :=
  o ← setattrs Geometry_slots kwargs (default_fill Geometry_slots);
  c ← slot o "coordinates";
  p ← (if truthy c then coords ← iter c; Point_init coords
       else Point_init [VFloat (-1111.0)%float; VFloat (-1111.0)%float]);
  Ok (VObj CGeometry (<["coordinates":=p]> o)).

Definition Probe_slots : list string :=
  ["address_v4"; "address_v6"; "asn_v4"; "asn_v6"; "country_code";
   "description"; "first_connected"; "geometry"; "id"; "is_anchor";
   "is_public"; "last_connected"; "prefix_v4"; "prefix_v6"; "status";
   "status_since"; "tags"; "type"].

(** [Tag(t[u'name'], t[u'slug'])] *)
Definition make_tag (t : value) : result value :=
  name ← subscript t "name";
  slug ← subscript t "slug";
  Tag_init name slug.

(** The body of [Probe.__init__] down to the assignment of the geometry: the
    slots are filled, then the status and the geometry are replaced by their
    instances. *)
Definition Probe_fields (kwargs : list (string * value)) : result (gmap string value) :=
  o ← setattrs Probe_slots kwargs (default_fill Probe_slots);
  st ← slot o "status";
  s ← (if truthy st then kw ← star_star st; Status_init kw
       else Status_init []);
  let o := <["status":=s]> o in
  ge ← slot o "geometry";
  g ← (if truthy ge then kw ← star_star ge; Geometry_init kw
       else Geometry_init []);
  Ok (<["geometry":=g]> o).

(** The last line of [Probe.__init__]: the list of the tags. *)
Definition Probe_tags (o : gmap string value) : result value :=
  ts ← slot o "tags";
  ts ← iter ts;
  tags ← mapM make_tag ts;
  Ok (VObj CProbe (<["tags":=VList tags]> o)).

Definition Probe_init (kwargs : list (string * value)) : result value :=
  o ← Probe_fields kwargs; Probe_tags o.

(** The call of [Probe] on the unpacked [probe_data]. *)
Definition Probe (probe_data : value) : result value :=
  kw ← star_star probe_data; Probe_init kw.

(** ** The pages of the catalogue *)

Definition API_ROOT : string := "https://atlas.ripe.net/api/v2".
Definition API_PROBES : string := API_ROOT +:+ "/probes/".
Definition PAGE_SZ : Z := 500.
Definition COL_SEP : string := ",".
Definition TAG_SEP : string := "+".

(** What [requests.get] returns: the status code and the decoded JSON body,
    [None] when the body does not decode. *)
Record response := Response { status_code : Z; body : option value }.

(** [r.raise_for_status()] of the requests library raises for the client and
    server error codes, 400 to 599, and returns for every other code. *)
Definition raise_for_status (r : response) : result unit :=
  if (400 <=? status_code r) && (status_code r <? 600)
  then Raise (HTTPError (status_code r))
  else Ok ().

(** [r.json()] *)
Definition json (r : response) : result value :=
  match body r with
  | Some data => Ok data
  | None => Raise ValueError
  end.

(** What a generator does while it is driven to its end: the requests it
    sends and the probes it yields, in order. *)
Inductive event :=
| Get (url : value) (params : list (string * value))
| Yield (p : value).

(** How the run of a generator ends: it returns, it raises, or it waits for
    the answer to a request the environment has no answer for. *)
Inductive outcome :=
| Done
| Raised (e : exn)
| Pending.

Definition emit (evs : list event) (k : list event * outcome) : list event * outcome :=
  (evs ++ k.1, k.2).

(** The loop of [get_probe_data] over the elements of [results]. *)
Fixpoint yield_probes (l : list value) : list event * outcome :=
  match l with
  | [] => ([], Done)
  | probe_data :: l' =>
    match Probe probe_data with
    | Ok p => emit [Yield p] (yield_probes l')
    | Raise e => ([], Raised e)
    end
  end.

Definition get_probe_data (results : value) : list event * outcome :=
  match iter results with
  | Ok l => yield_probes l
  | Raise e => ([], Raised e)
  end.

(** The head of one turn of the loop of [get_probes]: the status check and
    the three reads that come before the first [break]. *)
Definition page_head (r : response) : result (value * value * value) :=
  _ ← (if negb (status_code r =? 200) then raise_for_status r else Ok ());
  data ← json r;
  count ← subscript data "count";
  url ← subscript data "next";
  Ok (data, count, url).

(** [requests.get(url, params)] against an environment that answers the
    requests in turn: each answer is a response or a transport failure.  The
    generator goes on in [k] with the response and the answers left. *)
Definition requests_get (url : value) (params : list (string * value))
    (replies : list (result response))
    (k : list (result response) → response → list event * outcome)
    : list event * outcome :=
  emit [Get url params]
    match replies with
    | [] => ([], Pending)
    | Raise e :: _ => ([], Raised e)
    | Ok r :: replies' => k replies' r
    end.

(** The [while True] loop of [get_probes], entered with the response [r]. *)
Fixpoint get_probes_loop (replies : list (result response)) (r : response)
    : list event * outcome :=
  match page_head r with
  | Raise e => ([], Raised e)
  | Ok (data, count, url) =>
    if negb (truthy count) then ([], Done)
    else
      match subscript data "results" with
      | Raise e => ([], Raised e)
      | Ok results =>
        match get_probe_data results with
        | (evs, Done) =>
          if negb (truthy url) then (evs, Done)
          else
            emit evs (requests_get url [] replies get_probes_loop)
        | (evs, o) => (evs, o)
        end
      end
  end.

Definition first_params : list (string * value) :=
  [("page_size", VInt PAGE_SZ); ("sort", VStr "id")].

Definition get_probes (replies : list (result response)) : list event * outcome :=
  requests_get (VStr API_PROBES) first_params replies get_probes_loop.

(** ** The text of a row *)

Definition NL : string := String (ascii_of_nat 10) EmptyString.

(** [sep.join(l)] on strings. *)
Fixpoint concat_with (sep : string) (l : list string) : string :=
  match l with
  | [] => ""
  | [s] => s
  | s :: l' => s +:+ sep +:+ concat_with sep l'
  end.

(** [sep.join(items)]: every item has to be a string. *)
Definition join (sep : string) (items : list value) : result string :=
  ss ← mapM (λ v, match v with VStr s => Ok s | _ => Raise TypeError end) items;
  Ok (concat_with sep ss).

Definition is_ascii (a : ascii) : bool := (nat_of_ascii a <? 128)%nat.

Definition upper_ascii (a : ascii) : ascii :=
  let n := nat_of_ascii a in
  if ((97 <=? n) && (n <=? 122))%nat then ascii_of_nat (n - 32) else a.

Fixpoint map_string (f : ascii → ascii) (s : string) : string :=
  match s with
  | EmptyString => EmptyString
  | String a s' => String (f a) (map_string f s')
  end.

Fixpoint forall_string (f : ascii → bool) (s : string) : bool :=
  match s with
  | EmptyString => true
  | String a s' => f a && forall_string f s'
  end.

(** The integer a finite float [m * 2^e] is equal to, when it is one. *)
Definition integral (m : positive) (e : Z) : option Z :=
  if 0 <=? e then Some (Z.pos m * 2 ^ e)
  else if Z.pos m mod 2 ^ (- e) =? 0 then Some (Z.pos m / 2 ^ (- e))
  else None.

(** Whether a text has no surrogate code point, so that it can be encoded in
    UTF-8: no byte ED is followed by a byte from A0 to BF. *)
Fixpoint encodable (s : string) : bool :=
  match s with
  | EmptyString => true
  | String a s' =>
    negb ((nat_of_ascii a =? 237)%nat &&
          match s' with
          | String b _ => ((160 <=? nat_of_ascii b) && (nat_of_ascii b <=? 191))%nat
          | EmptyString => false
          end)
    && encodable s'
  end.

Section Text.

(** Two functions of the interpreter are taken as they are: the text of a
    float that is not an integer below [10^16], of a list, of a dict and of
    an instance, and the upper case of a string with characters outside
    ASCII. *)
Variable repr_other : value → string.
Variable upper_unicode : string → string.

(** [str(f)] of a float: an integer below [10^16] is written with its
    digits and [.0]. *)
Definition float_str (f : float) : string :=
  match Prim2SF f with
  | S754_zero s => if s then "-0.0" else "0.0"
  | S754_infinity s => if s then "-inf" else "inf"
  | S754_nan => "nan"
  | S754_finite s m e =>
    match integral m e with
    | Some n =>
      if n <? 10 ^ 16 then (if s then "-" else "") +:+ pretty n +:+ ".0"
      else repr_other (VFloat f)
    | None => repr_other (VFloat f)
    end
  end.

(** [str(v)] *)
Definition str (v : value) : string :=
  match v with
  | VNone => "None"
  | VBool b => if b then "True" else "False"
  | VInt n => pretty n
  | VFloat f => float_str f
  | VStr s => s
  | _ => repr_other v
  end.

(** [s.upper()] on a string. *)
Definition str_upper (s : string) : string :=
  if forall_string is_ascii s then map_string upper_ascii s
  else upper_unicode s.

(** [v.upper()]: of the values, only a string has the method. *)
Definition upper (v : value) : result value :=
  match v with
  | VStr s => Ok (VStr (str_upper s))
  | _ => Raise AttributeError
  end.

(** [1 if v else 0] *)
Definition flag (v : value) : value := VInt (if truthy v then 1 else 0).

(** The tuple of the sixteen values of a row, evaluated from left to
    right. *)
Definition row_values (p : value) : result (list value) :=
  id ← getattr p "id";
  asn_v4 ← getattr p "asn_v4";
  address_v4 ← getattr p "address_v4";
  prefix_v4 ← getattr p "prefix_v4";
  asn_v6 ← getattr p "asn_v6";
  address_v6 ← getattr p "address_v6";
  prefix_v6 ← getattr p "prefix_v6";
  country_code ← getattr p "country_code";
  lat ← (g ← getattr p "geometry"; c ← getattr g "coordinates"; getattr c "lat");
  lng ← (g ← getattr p "geometry"; c ← getattr g "coordinates"; getattr c "lng");
  is_anchor ← getattr p "is_anchor";
  is_public ← getattr p "is_public";
  last_connected ← getattr p "last_connected";
  name ← (st ← getattr p "status"; n ← getattr st "name"; upper n);
  status_since ← getattr p "status_since";
  tags ← (ts ← getattr p "tags"; ts ← iter ts;
          slugs ← mapM (λ t, getattr t "slug") ts; join TAG_SEP slugs);
  Ok [id; asn_v4; address_v4; prefix_v4; asn_v6; address_v6; prefix_v6;
      country_code; lat; lng; flag is_anchor; flag is_public;
      last_connected; name; status_since; VStr tags].

(** [COL_SEP.join(str(v) for v in (...))] *)
Definition row (p : value) : result string :=
  vs ← row_values p; Ok (concat_with COL_SEP (str <$> vs)).

(** ** The main loop *)

Definition header : string :=
  "#<id>,<asn_v4>,<address_v4>,<pfx_v4>"
  +:+ ",<asn_v6>,<address_v6>,<pfx_v6>"
  +:+ ",<country>,<lat>,<lng>"
  +:+ ",<anchor?>,<public?>,<last_connect>"
  +:+ ",<status>,<status_ts>,<tags>" +:+ NL.

(** What a run of [main] leaves: the strings written to the file, the lines
    printed, and how the run ended. *)
Record output := Output {
  file : list string;
  console : list string;
  exit : outcome
}.

Definition progress (n : Z) : list string :=
  if negb (n mod PAGE_SZ =? 0) then [] else ["- #probes: " +:+ pretty n].

(** [f.write(s)] on the file opened with the utf-8 encoding: the text is
    encoded first, and a surrogate code point cannot be encoded. *)
Definition write (s : string) : result string :=
  if encodable s then Ok s else Raise UnicodeEncodeError.

(** What the body of the loop writes for the probe [p]: its row and a
    newline. *)
Definition written (p : value) : result string :=
  line ← row p; write (line +:+ NL).

(** The body of [for p in get_probes()], driven by the events of the
    generator: the generator runs only as far as the loop asks it to, so a
    row or a write that raises ends the run where it stands. *)
Fixpoint main_loop (evs : list event) (o : outcome) (n : Z) : output :=
  match evs with
  | [] =>
    match o with
    | Done => Output [] ["- fetched details of " +:+ pretty n +:+ " probes."] Done
    | _ => Output [] [] o
    end
  | Get _ _ :: evs' => main_loop evs' o n
  | Yield p :: evs' =>
    match written p with
    | Raise e => Output [] [] (Raised e)
    | Ok text =>
      let rest := main_loop evs' o (n + 1) in
      Output (text :: file rest) (progress (n + 1) ++ console rest)
             (exit rest)
    end
  end.

(** [main], after the output file is open; the header is ASCII text. *)
Definition main (replies : list (result response)) : output :=
  let '(evs, o) := get_probes replies in
  let rest := main_loop evs o 0 in
  Output (header :: file rest) (console rest) (exit rest).

End Text.

(** ** Reading the output *)

(** [ends_with s suf]: [s.endswith(suf)]. *)
Fixpoint ends_with (s suf : string) : bool :=
  if String.eqb s suf then true
  else match s with
       | EmptyString => false
       | String _ s' => ends_with s' suf
       end.

(** [split_on c s]: [s.split(c)] for a separator of one character. *)
Fixpoint split_on (c : ascii) (s : string) : list string :=
  match s with
  | EmptyString => [EmptyString]
  | String a s' =>
    if Ascii.eqb a c then EmptyString :: split_on c s'
    else match split_on c s' with
         | piece :: ps => String a piece :: ps
         | [] => [String a EmptyString]
         end
  end.

Fixpoint occurs (c : ascii) (s : string) : bool :=
  match s with
  | EmptyString => false
  | String a s' => Ascii.eqb a c || occurs c s'
  end.

Definition comma : ascii := ascii_of_nat 44.

(** The requests and the probes of a trace. *)
Definition requests (evs : list event) : list (value * list (string * value)) :=
  omap (λ ev, match ev with Get u ps => Some (u, ps) | Yield _ => None end) evs.

Definition yields (evs : list event) : list value :=
  omap (λ ev, match ev with Yield p => Some p | Get _ _ => None end) evs.

(** ** Shapes of the instances *)

Definition tag_of (name slug : value) : value :=
  VObj CTag (<["slug":=slug]> (<["name":=name]> ∅)).

Definition point_of (x y : value) : value :=
  VObj CPoint (<["lng":=x]> (<["lat":=y]> (<["y":=y]> (<["x":=x]> ∅)))).

Definition sentinel : value :=
  point_of (VFloat (-1111.0)%float) (VFloat (-1111.0)%float).

(** An instance of class [c] all of whose slots [slots] are set, and no other
    attribute. *)
Definition instance_of (c : cls) (slots : list string) (v : value) : Prop :=
  ∃ o, v = VObj c o ∧ ∀ k, is_Some (o !! k) ↔ k ∈ slots.

(** A mapping that has both keys of a tag. *)
Definition complete_tag (t : value) : Prop :=
  ∃ d, t = VDict d ∧ is_Some (dict_get "name" d) ∧ is_Some (dict_get "slug" d).

(** ** Reading a raw record *)

(** The value a slot holds after the two loops of a constructor: the keyword
    of that name, or the empty string. *)
Definition raw (k : string) (kwargs : list (string * value)) : value :=
  default (VStr "") (dict_get k kwargs).

(** A value counts as not supplied under a key when the key is absent or its
    value is false in a condition. *)
Definition unsupplied (k : string) (d : list (string * value)) : Prop :=
  match dict_get k d with
  | None => True
  | Some v => truthy v = false
  end.

(** The point a geometry gets from the value [c] of its [coordinates]
    slot. *)
Definition coordinates_point (c : value) : result value :=
  if truthy c then coords ← iter c; Point_init coords
  else Point_init [VFloat (-1111.0)%float; VFloat (-1111.0)%float].

(** The instance a constructor builds from the value [v] of the slot it
    replaces: from the unpacked mapping when [v] is true, from no argument
    otherwise. *)
Definition construct (init : list (string * value) → result value) (v : value) : result value :=
  if truthy v then kw ← star_star v; init kw else init [].


(** A page of the catalogue: a response with status 200 whose body is a
    mapping with a [count], a [next] reference and a list of [results]. *)
Definition page (r : response) (count next : value) (results : list value) : Prop :=
  status_code r = 200 ∧
  ∃ b, body r = Some (VDict b) ∧ dict_get "count" b = Some count ∧
    dict_get "next" b = Some next ∧ dict_get "results" b = Some (VList results).

(** What the generator does with the answer [x] to the request it waits
    on, [after] being the answers that follow. *)
Definition resume (x : result response) (after : list (result response))
    : list event * outcome :=
  match x with
  | Ok r => get_probes_loop after r
  | Raise e => ([], Raised e)
  end.


(** ** Runs over several pages *)

(** A page as the paginator follows it: the response, what its body holds,
    and the probes its records normalise to. *)
Record fetched := Fetched {
  f_response : response;
  f_count : value;
  f_next : value;
  f_results : list value;
  f_probes : list value
}.

Definition well_fetched (f : fetched) : Prop :=
  page (f_response f) (f_count f) (f_next f) (f_results f) ∧
  truthy (f_count f) = true ∧
  mapM Probe (f_results f) = Ok (f_probes f).

(** Every page but the last has a next reference that is true in a
    condition, the last has one that is false. *)
Fixpoint linked (fs : list fetched) : Prop :=
  match fs with
  | [] => False
  | f :: fs' =>
    match fs' with
    | [] => truthy (f_next f) = false
    | _ :: _ => truthy (f_next f) = true ∧ linked fs'
    end
  end.

(** The probes of the pages, with the request for the next page between two
    pages. *)
Fixpoint pages_trace (fs : list fetched) : list event :=
  match fs with
  | [] => []
  | f :: fs' =>
    (Yield <$> f_probes f) ++
    match fs' with
    | [] => []
    | _ :: _ => Get (f_next f) [] :: pages_trace fs'
    end
  end.

(** The lines [main] prints while it writes rows [first] to [first + count - 1]. *)
Fixpoint progress_lines (first : Z) (count : nat) : list string :=
  match count with
  | O => []
  | S count' => progress first ++ progress_lines (first + 1) count'
  end.

(** ** Sample data *)

Definition sample_tags : value :=
  VList [VDict [("name", VStr "a"); ("slug", VStr "a1")];
         VDict [("name", VStr "b"); ("slug", VStr "b2")]].

(** A record with a full status, the coordinates [[10.0, 20.0]] and two
    tags. *)
Definition sample_record : list (string * value) :=
  [("id", VInt 6001);
   ("status", VDict [("since", VStr "2016-05-23T04:42:00Z"); ("id", VInt 1);
                     ("name", VStr "Connected")]);
   ("geometry", VDict [("type", VStr "Point");
                       ("coordinates", VList [VFloat 10.0%float; VFloat 20.0%float])]);
   ("tags", sample_tags)].

(** The same record with a key the class has no slot for. *)
Definition sample_unknown_key : list (string * value) :=
  sample_record ++ [("total_uptime", VInt 86400)].

(** A record whose second tag has no slug. *)
Definition sample_incomplete_tag : list (string * value) :=
  [("id", VInt 6002);
   ("tags", VList [VDict [("name", VStr "a"); ("slug", VStr "a1")];
                   VDict [("name", VStr "b")]])].

(** A record whose geometry has no coordinates, and one whose coordinates
    have one element. *)
Definition sample_no_coordinates : list (string * value) :=
  [("id", VInt 6003); ("geometry", VDict [("type", VStr "Point")])].

Definition sample_one_coordinate : list (string * value) :=
  [("id", VInt 6004); ("geometry", VDict [("coordinates", VList [VFloat 10.0%float])])].

(** A response with status 200 that carries a page. *)
Definition page_of (count next : value) (results : list value) : response :=
  Response 200 (Some (VDict [("count", count); ("next", next);
                             ("results", VList results)])).

Definition sample_page1 : response :=
  page_of (VInt 3) (VStr "https://atlas.ripe.net/api/v2/probes/?page=2")
    [VDict sample_record].

Definition sample_page2 : response :=
  page_of (VInt 3) (VStr "https://atlas.ripe.net/api/v2/probes/?page=3")
    [VDict sample_no_coordinates].

Definition sample_page3 : response :=
  page_of (VInt 3) VNone [VDict [("id", VInt 6005)]].


Definition sample_page3_zero : response :=
  page_of (VInt 0) VNone [VDict [("id", VInt 6005)]].

Definition sample_page1_empty_next : response :=
  page_of (VInt 3) (VStr "") [VDict sample_record].



(** A page of 501 records, and the lines of their rows. *)
Definition sample_long_page : response :=
  page_of (VInt 501) VNone ((λ i, VDict [("id", VInt (Z.of_nat i))]) <$> seq 1 501).

Definition sample_long_texts : list string :=
  (λ i, pretty (Z.of_nat i) +:+ ",,,,,,,,-1111.0,-1111.0,0,0,,,," +:+ NL) <$> seq 1 501.

(** The surrogate code point U+D800, and a page whose second record holds
    it. *)
Definition sample_surrogate : string :=
  String (ascii_of_nat 237) (String (ascii_of_nat 160)
    (String (ascii_of_nat 128) EmptyString)).

Definition sample_surrogate_page : response :=
  page_of (VInt 2) VNone
    [VDict [("id", VInt 6001)];
     VDict [("id", VInt 6002); ("country_code", VStr sample_surrogate)]].

(** * Properties *)

(** Membership of a literal name in a literal list of slots is decided by
    evaluation. *)
Ltac slot_in := apply (bool_decide_unpack _); vm_compute; exact I.
Ltac slot_out H := revert H; apply (bool_decide_unpack _); vm_compute; exact I.

(** ** The error monad *)

Lemma bind_Ok {A B : Type} (m : result A) (f : A → result B) b :
  m ≫= f = Ok b ↔ ∃ a, m = Ok a ∧ f a = Ok b.
Proof.
  destruct m as [a|e]; simpl; split.
  - intros H. by exists a.
  - by intros (a' & [= <-] & H).
  - done.
  - by intros (a' & [=] & _).
Qed.

Lemma bind_Raise {A B : Type} (m : result A) (f : A → result B) e :
  m ≫= f = Raise e ↔ m = Raise e ∨ ∃ a, m = Ok a ∧ f a = Raise e.
Proof.
  destruct m as [a|e']; simpl; split.
  - intros H. right. by exists a.
  - by intros [[=]|(a' & [= <-] & H)].
  - intros [= <-]. by left.
  - by intros [[= <-]|(a' & [=] & _)].
Qed.

Lemma result_cases {A : Type} (m : result A) : is_Ok m ∨ is_Raise m.
Proof. destruct m as [a|e]; [left|right]; eexists; done. Qed.

Lemma Ok_not_Raise {A : Type} (m : result A) : is_Ok m → is_Raise m → False.
Proof. by intros [a ->] [e [=]]. Qed.

Lemma mapM_Ok {A B : Type} (f : A → result B) l bs :
  mapM f l = Ok bs ↔ Forall2 (λ a b, f a = Ok b) l bs.
Proof.
  revert bs. induction l as [|a l IH]; intros bs; simpl.
  - split; [intros [= <-]; constructor | by inversion 1].
  - rewrite bind_Ok. split.
    + intros (b & Hb & H). apply bind_Ok in H as (bs' & Hbs & [= <-]).
      constructor; [done | by apply IH].
    + inversion 1 as [|? b ? bs' Hb Hbs]; subst. exists b. split; [done|].
      apply bind_Ok. exists bs'. split; [by apply IH | done].
Qed.



(** ** Slots *)

Lemma default_fill_lookup slots k :
  default_fill slots !! k = if decide (k ∈ slots) then Some (VStr "") else None.
Proof.
  induction slots as [|a slots IH]; cbn [default_fill foldr].
  - rewrite lookup_empty. destruct (decide (k ∈ [])); [set_solver|done].
  - fold (default_fill slots). rewrite lookup_insert, IH.
    destruct (decide (a = k)), (decide (k ∈ slots)), (decide (k ∈ a :: slots));
      set_solver.
Qed.

Lemma setattr_Ok slots k v o o' :
  setattr slots k v o = Ok o' ↔ k ∈ slots ∧ o' = <[k:=v]> o.
Proof.
  unfold setattr. repeat case_decide; split; try done; try naive_solver.
Qed.

Lemma setattr_Raise slots k v o e :
  setattr slots k v o = Raise e →
  (k ∉ slots) ∧ (e = AttributeError ∨ e = TypeError).
Proof. unfold setattr. repeat case_decide; naive_solver. Qed.

(** The loop over the keywords succeeds exactly when every key is a slot,
    and then a slot holds the value of its keyword, or what it held. *)
Lemma setattrs_Ok slots kwargs o o' :
  setattrs slots kwargs o = Ok o' ↔
  Forall (λ k, k ∈ slots) kwargs.*1 ∧
  ∀ k, o' !! k = match dict_get k kwargs with Some v => Some v | None => o !! k end.
Proof.
  revert o o'. induction kwargs as [|[k v] kw IH]; intros o o'; simpl.
  - split.
    + intros [= <-]. by split; [constructor|].
    + intros [_ H]. f_equal. apply map_eq. intros i. by rewrite H.
  - rewrite bind_Ok. split.
    + intros (o1 & H1 & H2). apply setattr_Ok in H1 as [Hk ->].
      apply IH in H2 as [Hall Hlook]. split; [by constructor|].
      intros j. rewrite Hlook. destruct (dict_get j kw); [done|].
      rewrite lookup_insert. by repeat case_decide.
    + intros [Hall Hlook]. inversion Hall as [|? ? Hk Hall']; subst.
      exists (<[k:=v]> o). split; [by apply setattr_Ok|].
      apply IH. split; [done|]. intros j. rewrite Hlook.
      destruct (dict_get j kw); [done|].
      rewrite lookup_insert. by repeat case_decide.
Qed.

Lemma setattrs_Raise slots kwargs o e :
  setattrs slots kwargs o = Raise e →
  (∃ k, k ∈ kwargs.*1 ∧ k ∉ slots) ∧ (e = AttributeError ∨ e = TypeError).
Proof.
  revert o. induction kwargs as [|[k v] kw IH]; intros o; simpl; [done|].
  rewrite bind_Raise. intros [H|(o1 & _ & H)].
  - apply setattr_Raise in H as [Hk He]. split; [|done].
    exists k. split; [simpl; set_solver|done].
  - apply IH in H as [(j & Hj & Hn) He]. split; [|done].
    exists j. split; [simpl; set_solver|done].
Qed.

(** One key that is not a slot is enough for the loop to raise. *)
Lemma setattrs_unknown slots kwargs o k :
  k ∈ kwargs.*1 → k ∉ slots → is_Raise (setattrs slots kwargs o).
Proof.
  intros Hin Hk. destruct (setattrs slots kwargs o) as [o'|e] eqn:H; [|by eexists].
  apply setattrs_Ok in H as [Hall _].
  rewrite Forall_forall in Hall. destruct Hk. by apply Hall.
Qed.

Lemma dict_get_Some_elem k d v : dict_get k d = Some v → k ∈ d.*1.
Proof.
  revert v. induction d as [|[k' w] d IH]; intros v; cbn [dict_get]; [done|].
  rewrite fmap_cons, elem_of_cons. cbn [fst].
  destruct (dict_get k d) as [v0|].
  - intros _. right. by apply (IH v0).
  - destruct (decide (k' = k)) as [->|]; [intros _; by left | done].
Qed.

Lemma dict_get_None k d : dict_get k d = None ↔ k ∉ d.*1.
Proof.
  induction d as [|[k' w] d IH]; cbn [dict_get].
  - split; [intros _; apply not_elem_of_nil | done].
  - rewrite fmap_cons, not_elem_of_cons. cbn [fst].
    destruct (dict_get k d) eqn:E.
    + split; [done|]. intros [_ H]. apply dict_get_Some_elem in E. done.
    + destruct (decide (k' = k)) as [->|]; [naive_solver|].
      split; [|done]. intros _. split; [done | by apply IH].
Qed.

(** ** The classes *)

Lemma filled_lookup slots kwargs o k :
  setattrs slots kwargs (default_fill slots) = Ok o →
  o !! k = if decide (k ∈ slots) then Some (raw k kwargs) else None.
Proof.
  intros H. apply setattrs_Ok in H as [Hall H]. rewrite H, default_fill_lookup.
  unfold raw. destruct (dict_get k kwargs) as [v|] eqn:E; [|done].
  apply dict_get_Some_elem in E. rewrite Forall_forall in Hall.
  by rewrite decide_True by by apply Hall.
Qed.

Lemma filled_slot slots kwargs o k :
  setattrs slots kwargs (default_fill slots) = Ok o → k ∈ slots →
  slot o k = Ok (raw k kwargs).
Proof.
  intros H Hk. unfold slot. by rewrite (filled_lookup _ _ _ _ H), decide_True.
Qed.

Lemma Point_init_pair x y : Point_init [x; y] = Ok (point_of x y).
Proof. reflexivity. Qed.

Lemma Point_init_Ok coords p :
  Point_init coords = Ok p ↔ ∃ x y, coords = [x; y] ∧ p = point_of x y.
Proof.
  split.
  - destruct coords as [|x [|y [|z coords]]]; try done.
    rewrite Point_init_pair. intros [= <-]. by exists x, y.
  - intros (x & y & -> & ->). apply Point_init_pair.
Qed.

Lemma Point_init_Raise coords :
  length coords ≠ 2%nat → Point_init coords = Raise ValueError.
Proof. by destruct coords as [|x [|y [|z coords]]]. Qed.

Lemma point_of_attrs x y :
  getattr (point_of x y) "x" = Ok x ∧ getattr (point_of x y) "y" = Ok y ∧
  getattr (point_of x y) "lat" = Ok y ∧ getattr (point_of x y) "lng" = Ok x.
Proof. done. Qed.

Lemma Status_init_Ok kwargs s :
  Status_init kwargs = Ok s ↔
  ∃ o, s = VObj CStatus o ∧ setattrs Status_slots kwargs (default_fill Status_slots) = Ok o.
Proof.
  unfold Status_init. rewrite bind_Ok. split.
  - intros (o & H & [= <-]). by exists o.
  - intros (o & -> & H). by exists o.
Qed.

Lemma Status_init_default :
  Status_init [] = Ok (VObj CStatus (default_fill Status_slots)).
Proof. reflexivity. Qed.

Lemma Geometry_init_Ok kwargs g :
  Geometry_init kwargs = Ok g ↔
  ∃ o p, g = VObj CGeometry (<["coordinates":=p]> o) ∧
    setattrs Geometry_slots kwargs (default_fill Geometry_slots) = Ok o ∧
    coordinates_point (raw "coordinates" kwargs) = Ok p.
Proof.
  unfold Geometry_init. rewrite bind_Ok. split.
  - intros (o & Ho & H). rewrite (filled_slot _ _ _ "coordinates" Ho) in H
      by slot_in.
    simpl in H. apply bind_Ok in H as (p & Hp & [= <-]). by exists o, p.
  - intros (o & p & -> & Ho & Hp). exists o. split; [done|].
    rewrite (filled_slot _ _ _ "coordinates" Ho)
      by slot_in.
    simpl. apply bind_Ok. by exists p.
Qed.

Lemma Geometry_init_default :
  Geometry_init [] = Ok (VObj CGeometry (<["coordinates":=sentinel]> (default_fill Geometry_slots))).
Proof. reflexivity. Qed.

Lemma Probe_fields_Ok kwargs o :
  Probe_fields kwargs = Ok o ↔
  ∃ o0 s g, o = <["geometry":=g]> (<["status":=s]> o0) ∧
    setattrs Probe_slots kwargs (default_fill Probe_slots) = Ok o0 ∧
    construct Status_init (raw "status" kwargs) = Ok s ∧
    construct Geometry_init (raw "geometry" kwargs) = Ok g.
Proof.
  unfold Probe_fields. rewrite bind_Ok. split.
  - intros (o0 & Ho & H).
    rewrite (filled_slot _ _ _ "status" Ho) in H by slot_in.
    cbn [mbind result_mbind result_bind] in H.
    apply bind_Ok in H as (s & Hs & H).
    unfold slot in H. rewrite lookup_insert_ne in H by done.
    fold (slot o0 "geometry") in H.
    rewrite (filled_slot _ _ _ "geometry" Ho) in H by slot_in.
    cbn [mbind result_mbind result_bind] in H.
    apply bind_Ok in H as (g & Hg & [= <-]). by exists o0, s, g.
  - intros (o0 & s & g & -> & Ho & Hs & Hg). exists o0. split; [done|].
    rewrite (filled_slot _ _ _ "status" Ho) by slot_in.
    cbn [mbind result_mbind result_bind].
    apply bind_Ok. exists s. split; [done|].
    unfold slot. rewrite lookup_insert_ne by done.
    fold (slot o0 "geometry").
    rewrite (filled_slot _ _ _ "geometry" Ho) by slot_in.
    cbn [mbind result_mbind result_bind].
    apply bind_Ok. by exists g.
Qed.

Lemma star_star_Ok v kw :
  star_star v = Ok kw ↔ v = VDict kw ∧ "self" ∉ kw.*1.
Proof.
  destruct v; simpl; try (split; [done | by intros [? _]]).
  case_decide; split; try done; naive_solver.
Qed.

Lemma slots_exclude_self slots kwargs o :
  "self" ∉ slots → setattrs slots kwargs o = Ok o → "self" ∉ kwargs.*1.
Proof.
  intros Hs H Hin. apply setattrs_Ok in H as [Hall _].
  rewrite Forall_forall in Hall. by apply Hs, Hall.
Qed.

(** The anatomy of a probe: what [Probe] returns is the instance whose slots
    hold the keywords, the two instances and the list of the tags. *)
Lemma Probe_Ok d p :
  Probe (VDict d) = Ok p ↔
  ∃ o0 s g ts tags,
    p = VObj CProbe (<["tags":=VList tags]> (<["geometry":=g]> (<["status":=s]> o0))) ∧
    setattrs Probe_slots d (default_fill Probe_slots) = Ok o0 ∧
    construct Status_init (raw "status" d) = Ok s ∧
    construct Geometry_init (raw "geometry" d) = Ok g ∧
    iter (raw "tags" d) = Ok ts ∧
    mapM make_tag ts = Ok tags.
Proof.
  assert (Htags : ∀ o0 s g, setattrs Probe_slots d (default_fill Probe_slots) = Ok o0 →
    slot (<["geometry":=g]> (<["status":=s]> o0)) "tags" = Ok (raw "tags" d)).
  { intros o0 s g Ho. unfold slot. rewrite !lookup_insert_ne by done.
    apply (filled_slot _ _ _ "tags" Ho). slot_in. }
  unfold Probe, Probe_init. rewrite bind_Ok. split.
  - intros (kw & Hkw & H). apply star_star_Ok in Hkw as [[= <-] Hself].
    apply bind_Ok in H as (o & Ho & H).
    apply Probe_fields_Ok in Ho as (o0 & s & g & -> & Ho0 & Hs & Hg).
    unfold Probe_tags in H. rewrite (Htags _ _ _ Ho0) in H.
    cbn [mbind result_mbind result_bind] in H.
    apply bind_Ok in H as (ts & Hts & H).
    apply bind_Ok in H as (tags & Htg & [= <-]).
    by exists o0, s, g, ts, tags.
  - intros (o0 & s & g & ts & tags & -> & Ho0 & Hs & Hg & Hts & Htg).
    exists d. split.
    + apply star_star_Ok. split; [done|].
      intros Hin. apply setattrs_Ok in Ho0 as [Hall _].
      rewrite Forall_forall in Hall. specialize (Hall _ Hin).
      slot_out Hall.
    + apply bind_Ok. exists (<["geometry":=g]> (<["status":=s]> o0)).
      split; [apply Probe_fields_Ok; by exists o0, s, g|].
      unfold Probe_tags. rewrite (Htags _ _ _ Ho0).
      cbn [mbind result_mbind result_bind].
      apply bind_Ok. exists ts. split; [done|].
      apply bind_Ok. by exists tags.
Qed.

Lemma construct_Ok init v r :
  construct init v = Ok r ↔
  (truthy v = true ∧ ∃ kw, v = VDict kw ∧ ("self" ∉ kw.*1) ∧ init kw = Ok r) ∨
  (truthy v = false ∧ init [] = Ok r).
Proof.
  unfold construct. destruct (truthy v).
  - rewrite bind_Ok. split.
    + intros (kw & Hkw & H). apply star_star_Ok in Hkw as [-> Hs].
      left. split; [done|]. by exists kw.
    + intros [[_ (kw & -> & Hs & H)]|[[=] _]]. exists kw.
      split; [by apply star_star_Ok | done].
  - split; [by right | by intros [[[=] _]|[_ H]]].
Qed.

Lemma unsupplied_raw k d : unsupplied k d ↔ truthy (raw k d) = false.
Proof. unfold unsupplied, raw. by destruct (dict_get k d). Qed.

(** ** Normalising one record *)

Lemma probe_geometry tags g o :
  getattr (VObj CProbe (<["tags":=tags]> (<["geometry":=g]> o))) "geometry" = Ok g.
Proof.
  unfold getattr, slot. rewrite lookup_insert_ne by done. by rewrite lookup_insert_eq.
Qed.

Lemma probe_status tags g s o :
  getattr (VObj CProbe (<["tags":=tags]> (<["geometry":=g]> (<["status":=s]> o)))) "status" = Ok s.
Proof.
  unfold getattr, slot. rewrite !lookup_insert_ne by done. by rewrite lookup_insert_eq.
Qed.

Lemma probe_tags tags o : getattr (VObj CProbe (<["tags":=tags]> o)) "tags" = Ok tags.
Proof. unfold getattr, slot. by rewrite lookup_insert_eq. Qed.

Lemma probe_scalar tags g s o k :
  k ≠ "tags" → k ≠ "geometry" → k ≠ "status" →
  getattr (VObj CProbe (<["tags":=tags]> (<["geometry":=g]> (<["status":=s]> o)))) k = slot o k.
Proof. intros. unfold getattr, slot. by rewrite !lookup_insert_ne by done. Qed.

Lemma geometry_coordinates p o :
  getattr (VObj CGeometry (<["coordinates":=p]> o)) "coordinates" = Ok p.
Proof. unfold getattr, slot. by rewrite lookup_insert_eq. Qed.

(** The coordinates of the geometry a probe is given: the point built from
    the raw [coordinates] of the raw [geometry], both read as not supplied
    when they are false. *)
Lemma Probe_coordinates d p :
  Probe (VDict d) = Ok p →
  ∃ g pt, getattr p "geometry" = Ok g ∧ getattr g "coordinates" = Ok pt ∧
    ((truthy (raw "geometry" d) = true ∧ ∃ kw, raw "geometry" d = VDict kw ∧
        coordinates_point (raw "coordinates" kw) = Ok pt) ∨
     (truthy (raw "geometry" d) = false ∧ pt = sentinel)).
Proof.
  intros H. apply Probe_Ok in H as (o0 & s & g & ts & tags & -> & _ & _ & Hg & _).
  exists g. rewrite probe_geometry.
  apply construct_Ok in Hg as [[Ht (kw & Hkw & _ & Hg)]|[Ht Hg]].
  - apply Geometry_init_Ok in Hg as (o & pt & -> & _ & Hpt).
    exists pt. rewrite geometry_coordinates. split_and!; [done..|].
    left. split; [done|]. by exists kw.
  - rewrite Geometry_init_default in Hg. injection Hg as <-.
    exists sentinel. rewrite geometry_coordinates. split_and!; [done..|]. by right.
Qed.

Lemma coordinates_point_false c :
  truthy c = false → coordinates_point c = Ok sentinel.
Proof. unfold coordinates_point. by intros ->. Qed.

Lemma coordinates_point_list cs :
  cs ≠ [] → coordinates_point (VList cs) = Point_init cs.
Proof. unfold coordinates_point. by destruct cs. Qed.

Lemma raw_Some k d v : dict_get k d = Some v → raw k d = v.
Proof. unfold raw. by intros ->. Qed.

Lemma dict_get_nonempty k d v : dict_get k d = Some v → truthy (VDict d) = true.
Proof. by destruct d. Qed.

(** C7: a probe normalised from a record whose geometry is absent or empty,
    or whose geometry has an absent or empty [coordinates], has the sentinel
    point as the coordinates of its geometry: [x], [y], [lat] and [lng] are
    all [-1111.0]. *)
Theorem C7_sentinel_point d p :
  Probe (VDict d) = Ok p →
  unsupplied "geometry" d ∨
    (∃ g, dict_get "geometry" d = Some (VDict g) ∧ unsupplied "coordinates" g) →
  (g ← getattr p "geometry"; getattr g "coordinates") = Ok sentinel ∧
  getattr sentinel "x" = Ok (VFloat (-1111.0)%float) ∧
  getattr sentinel "y" = Ok (VFloat (-1111.0)%float) ∧
  getattr sentinel "lat" = Ok (VFloat (-1111.0)%float) ∧
  getattr sentinel "lng" = Ok (VFloat (-1111.0)%float).
Proof.
  intros Hp Hgeo. split; [|done].
  destruct (Probe_coordinates _ _ Hp) as (g & pt & -> & Hpt & Hcase).
  cbn [mbind result_mbind result_bind]. rewrite Hpt. f_equal.
  destruct Hcase as [[Ht (kw & Hkw & Hc)]|[_ ->]]; [|done].
  destruct Hgeo as [Hu|(g' & Hg' & Hu)].
  - apply unsupplied_raw in Hu. congruence.
  - rewrite (raw_Some _ _ _ Hg') in Hkw. injection Hkw as ->.
    apply unsupplied_raw, coordinates_point_false in Hu. congruence.
Qed.

Lemma Probe_pair d p g lon lat :
  Probe (VDict d) = Ok p →
  dict_get "geometry" d = Some (VDict g) →
  dict_get "coordinates" g = Some (VList [lon; lat]) →
  (ge ← getattr p "geometry"; getattr ge "coordinates") = Ok (point_of lon lat).
Proof.
  intros Hp Hg Hc.
  destruct (Probe_coordinates _ _ Hp) as (ge & pt & -> & Hpt & Hcase).
  cbn [mbind result_mbind result_bind]. rewrite Hpt. f_equal.
  rewrite (raw_Some _ _ _ Hg) in Hcase.
  destruct Hcase as [[_ (kw & [= <-] & Hcp)]|[Ht _]].
  - rewrite (raw_Some _ _ _ Hc), coordinates_point_list, Point_init_pair in Hcp by done.
    by injection Hcp as <-.
  - by rewrite (dict_get_nonempty _ _ _ Hc) in Ht.
Qed.

(** C8: a probe normalised from a record whose geometry carries the pair
    [[lon, lat]] has a point with [x = lon], [y = lat], [lng = lon] and
    [lat = lat]. *)
Theorem C8_point_of_pair d p g lon lat :
  Probe (VDict d) = Ok p →
  dict_get "geometry" d = Some (VDict g) →
  dict_get "coordinates" g = Some (VList [lon; lat]) →
  ∃ pt, (ge ← getattr p "geometry"; getattr ge "coordinates") = Ok pt ∧
    getattr pt "x" = Ok lon ∧ getattr pt "y" = Ok lat ∧
    getattr pt "lng" = Ok lon ∧ getattr pt "lat" = Ok lat.
Proof.
  intros Hp Hg Hc. exists (point_of lon lat).
  split; [by eapply Probe_pair|].
  by destruct (point_of_attrs lon lat) as (? & ? & ? & ?).
Qed.

(** The call of [Geometry] on an unpacked mapping. *)
Lemma Geometry_of_list g cs :
  dict_get "coordinates" g = Some (VList cs) →
  (cs ≠ [] → length cs ≠ 2%nat →
     is_Raise (construct Geometry_init (VDict g)) ∧
     (Forall (λ k, k ∈ Geometry_slots) g.*1 →
        construct Geometry_init (VDict g) = Raise ValueError)) ∧
  (Forall (λ k, k ∈ Geometry_slots) g.*1 → cs = [] ∨ length cs = 2%nat →
     is_Ok (construct Geometry_init (VDict g))).
Proof.
  intros Hc. pose proof (dict_get_nonempty _ _ _ Hc) as Ht.
  assert (Hself : Forall (λ k, k ∈ Geometry_slots) g.*1 → star_star (VDict g) = Ok g).
  { intros Hall. apply star_star_Ok. split; [done|]. intros Hin.
    rewrite Forall_forall in Hall. specialize (Hall _ Hin).
    slot_out Hall. }
  split.
  - intros Hne Hlen.
    assert (Hno : ∀ r, construct Geometry_init (VDict g) ≠ Ok r).
    { intros r Hr. apply construct_Ok in Hr as [[_ (kw & [= <-] & _ & Hr)]|[Hf _]];
        [|congruence].
      apply Geometry_init_Ok in Hr as (o & pt & _ & _ & Hpt).
      rewrite (raw_Some _ _ _ Hc), coordinates_point_list, Point_init_Raise in Hpt; done. }
    split.
    + destruct (construct Geometry_init (VDict g)) as [r|e] eqn:E; [|by eexists].
      by destruct (Hno r).
    + intros Hall. unfold construct. rewrite Ht, (Hself Hall).
      cbn [mbind result_mbind result_bind]. unfold Geometry_init.
      destruct (setattrs Geometry_slots g (default_fill Geometry_slots)) as [o|e] eqn:Ho.
      * cbn [mbind result_mbind result_bind].
        rewrite (filled_slot _ _ _ "coordinates" Ho) by slot_in.
        cbn [mbind result_mbind result_bind].
        fold (coordinates_point (raw "coordinates" g)).
        by rewrite (raw_Some _ _ _ Hc), coordinates_point_list, Point_init_Raise.
      * apply setattrs_Raise in Ho as [(k & Hk & Hn) _].
        rewrite Forall_forall in Hall. destruct Hn. by apply Hall.
  - intros Hall Hcs.
    destruct (setattrs Geometry_slots g (default_fill Geometry_slots)) as [o|e] eqn:Ho.
    + assert (∃ pt, coordinates_point (raw "coordinates" g) = Ok pt) as [pt Hpt].
      { rewrite (raw_Some _ _ _ Hc). destruct Hcs as [->|Hlen].
        - by exists sentinel.
        - destruct cs as [|x [|y [|z cs]]]; try done.
          exists (point_of x y). by rewrite coordinates_point_list. }
      exists (VObj CGeometry (<["coordinates":=pt]> o)).
      apply construct_Ok. left. split; [done|]. exists g.
      apply star_star_Ok in Hself as [_ Hs]; [|done]. split_and!; [done..|].
      apply Geometry_init_Ok. by exists o, pt.
    + apply setattrs_Raise in Ho as [(k & Hk & Hn) _].
      rewrite Forall_forall in Hall. destruct Hn. by apply Hall.
Qed.

(** C10: when the geometry of a record carries a [coordinates] list that is
    not empty and has not exactly two elements, the construction of the
    geometry raises (with the [ValueError] of the unpacking when the keys of
    the geometry are its slots) and so does the normalisation of the record;
    with an empty list or a list of two elements the construction of the
    geometry returns. *)
Theorem C10_coordinates_length d g cs :
  dict_get "geometry" d = Some (VDict g) →
  dict_get "coordinates" g = Some (VList cs) →
  (cs ≠ [] → length cs ≠ 2%nat →
     is_Raise (construct Geometry_init (VDict g)) ∧
     (Forall (λ k, k ∈ Geometry_slots) g.*1 →
        construct Geometry_init (VDict g) = Raise ValueError) ∧
     is_Raise (Probe (VDict d))) ∧
  (Forall (λ k, k ∈ Geometry_slots) g.*1 → cs = [] ∨ length cs = 2%nat →
     is_Ok (construct Geometry_init (VDict g))).
Proof.
  intros Hg Hc. destruct (Geometry_of_list _ _ Hc) as [Hbad Hgood].
  split; [|done]. intros Hne Hlen. destruct (Hbad Hne Hlen) as [Hr Hv].
  split_and!; [done..|].
  destruct (Probe (VDict d)) as [p|e] eqn:Hp; [|by eexists].
  apply Probe_Ok in Hp as (o0 & s & ge & ts & tags & _ & _ & _ & Hge & _).
  rewrite (raw_Some _ _ _ Hg) in Hge. destruct Hr as [e He]. congruence.
Qed.

(** ** The shape of a probe *)

Lemma filled_instance c slots kwargs o :
  setattrs slots kwargs (default_fill slots) = Ok o → instance_of c slots (VObj c o).
Proof.
  intros H. exists o. split; [done|]. intros k. rewrite (filled_lookup _ _ _ _ H).
  destruct (decide (k ∈ slots)); [by split; eauto|].
  split; [by intros [? [=]] | done].
Qed.

Lemma point_of_instance x y : instance_of CPoint Point_slots (point_of x y).
Proof.
  eexists. split; [done|]. intros k. unfold Point_slots.
  rewrite !elem_of_cons, elem_of_nil, !lookup_insert, lookup_empty.
  repeat case_decide; subst; split; eauto; try by intros [? [=]].
  naive_solver.
Qed.

Lemma tag_of_instance n s : instance_of CTag Tag_slots (tag_of n s).
Proof.
  eexists. split; [done|]. intros k. unfold Tag_slots.
  rewrite !elem_of_cons, elem_of_nil, !lookup_insert, lookup_empty.
  repeat case_decide; subst; split; eauto; try by intros [? [=]].
  naive_solver.
Qed.

Lemma coordinates_point_Ok c pt :
  coordinates_point c = Ok pt → ∃ x y, pt = point_of x y.
Proof.
  unfold coordinates_point. destruct (truthy c).
  - rewrite bind_Ok. intros (cs & _ & H).
    apply Point_init_Ok in H as (x & y & _ & ->). by exists x, y.
  - intros H. apply Point_init_Ok in H as (x & y & _ & ->). by exists x, y.
Qed.

Lemma construct_Status_instance v s :
  construct Status_init v = Ok s →
  instance_of CStatus Status_slots s ∧
  (truthy v = false → s = VObj CStatus (default_fill Status_slots)).
Proof.
  intros H. apply construct_Ok in H as [[Ht (kw & _ & _ & H)]|[Ht H]].
  - apply Status_init_Ok in H as (o & -> & Ho).
    split; [by eapply filled_instance | congruence].
  - apply Status_init_Ok in H as (o & -> & Ho).
    split; [by eapply filled_instance|]. intros _. by injection Ho as <-.
Qed.

Lemma Geometry_init_instance kw g :
  Geometry_init kw = Ok g →
  instance_of CGeometry Geometry_slots g ∧
  ∃ pt, getattr g "coordinates" = Ok pt ∧ instance_of CPoint Point_slots pt.
Proof.
  intros H. apply Geometry_init_Ok in H as (o & pt & -> & Ho & Hpt). split.
  - eexists. split; [done|]. intros k. rewrite lookup_insert.
    rewrite (filled_lookup _ _ _ _ Ho).
    destruct (decide ("coordinates" = k)) as [<-|].
    { split; [intros _; slot_in | eauto]. }
    destruct (decide (k ∈ Geometry_slots)); [by split; eauto|].
    split; [by intros [? [=]] | done].
  - exists pt. rewrite geometry_coordinates. split; [done|].
    apply coordinates_point_Ok in Hpt as (x & y & ->). apply point_of_instance.
Qed.

Lemma construct_Geometry_instance v g :
  construct Geometry_init v = Ok g →
  instance_of CGeometry Geometry_slots g ∧
  ∃ pt, getattr g "coordinates" = Ok pt ∧ instance_of CPoint Point_slots pt.
Proof.
  intros H. apply construct_Ok in H as [[_ (kw & _ & _ & H)]|[_ H]];
    by eapply Geometry_init_instance.
Qed.

Lemma make_tag_Ok t tg :
  make_tag t = Ok tg ↔
  ∃ d n s, t = VDict d ∧ dict_get "name" d = Some n ∧ dict_get "slug" d = Some s ∧
    tg = tag_of n s.
Proof.
  unfold make_tag, Tag_init. rewrite bind_Ok. split.
  - intros (n & Hn & H). apply bind_Ok in H as (s & Hs & [= <-]).
    destruct t as [| | | | | |d|]; try done. simpl in Hn, Hs.
    destruct (dict_get "name" d) as [n'|] eqn:En; [|done].
    destruct (dict_get "slug" d) as [s'|] eqn:Es; [|done].
    injection Hn as <-. injection Hs as <-. by exists d, n', s'.
  - intros (d & n & s & -> & Hn & Hs & ->). exists n. simpl. rewrite Hn.
    split; [done|]. apply bind_Ok. exists s. by rewrite Hs.
Qed.

Lemma make_tags_instances ts tags :
  mapM make_tag ts = Ok tags → Forall (instance_of CTag Tag_slots) tags.
Proof.
  rewrite mapM_Ok. induction 1 as [|t tg ts tags Ht _ IH]; constructor; [|done].
  apply make_tag_Ok in Ht as (d & n & s & _ & _ & _ & ->). apply tag_of_instance.
Qed.

Lemma iter_false v l : truthy v = false → iter v = Ok l → l = [].
Proof.
  destruct v as [| | | |s|l'|d|]; try done; simpl.
  - destruct s; [by intros _ [= <-] | done].
  - destruct l'; [by intros _ [= <-] | done].
  - destruct d; [by intros _ [= <-] | done].
Qed.

(** C9: a probe that was constructed holds a [Status] in its status slot,
    the all-default one when the record supplied no status or an empty one;
    a [Geometry] whose coordinates are a [Point] in its geometry slot; and a
    list of [Tag]s in its tags slot, the empty list when the record supplied
    no tags. *)
Theorem C9_probe_shape d p :
  Probe (VDict d) = Ok p →
  ∃ s g pt tags,
    getattr p "status" = Ok s ∧ instance_of CStatus Status_slots s ∧
    (unsupplied "status" d → s = VObj CStatus (default_fill Status_slots)) ∧
    getattr p "geometry" = Ok g ∧ instance_of CGeometry Geometry_slots g ∧
    getattr g "coordinates" = Ok pt ∧ instance_of CPoint Point_slots pt ∧
    getattr p "tags" = Ok (VList tags) ∧
    Forall (instance_of CTag Tag_slots) tags ∧
    (unsupplied "tags" d → tags = []).
Proof.
  intros H. apply Probe_Ok in H as (o0 & s & g & ts & tags & -> & Ho & Hs & Hg & Hts & Htg).
  apply construct_Status_instance in Hs as [Hs Hdef].
  apply construct_Geometry_instance in Hg as [Hg (pt & Hc & Hpt)].
  exists s, g, pt, tags. rewrite probe_status, probe_geometry, probe_tags.
  split_and!; try done.
  - intros Hu. by apply Hdef, unsupplied_raw.
  - by eapply make_tags_instances.
  - intros Hu. apply unsupplied_raw in Hu. rewrite (iter_false _ _ Hu Hts) in Htg.
    by injection Htg as <-.
Qed.

(** The all-default status has the empty string in its three slots. *)
Lemma default_status_slots :
  getattr (VObj CStatus (default_fill Status_slots)) "since" = Ok (VStr "") ∧
  getattr (VObj CStatus (default_fill Status_slots)) "id" = Ok (VStr "") ∧
  getattr (VObj CStatus (default_fill Status_slots)) "name" = Ok (VStr "").
Proof. done. Qed.

(** ** Records that do not normalise *)

Lemma Probe_Raise_kind d e :
  Probe (VDict d) = Raise e → is_Raise (setattrs Probe_slots d (default_fill Probe_slots)) →
  e = AttributeError ∨ e = TypeError.
Proof.
  intros H [e' He']. unfold Probe in H. apply bind_Raise in H as [H|(kw & Hkw & H)].
  - clear He'. cbn [star_star] in H.
    destruct (decide ("self" ∈ d.*1)); [injection H as <-; by right | done].
  - apply star_star_Ok in Hkw as [[= <-] _].
    unfold Probe_init, Probe_fields in H. rewrite He' in H. injection H as <-.
    by apply setattrs_Raise in He' as [_ ?].
Qed.

Lemma Probe_unknown_key d k :
  k ∈ d.*1 → k ∉ Probe_slots →
  ∃ e, Probe (VDict d) = Raise e ∧ (e = AttributeError ∨ e = TypeError).
Proof.
  intros Hin Hk.
  pose proof (setattrs_unknown Probe_slots d (default_fill Probe_slots) k Hin Hk) as Hs.
  destruct (Probe (VDict d)) as [p|e] eqn:Hp.
  - apply Probe_Ok in Hp as (o0 & _ & _ & _ & _ & _ & Ho & _).
    destruct Hs as [e He]. congruence.
  - exists e. split; [done|]. by eapply Probe_Raise_kind.
Qed.




Lemma make_tags_complete ts : Forall complete_tag ts → is_Ok (mapM make_tag ts).
Proof.
  induction 1 as [|t ts (d & -> & [n Hn] & [s Hs]) _ [tags IH]]; [by eexists|].
  exists (tag_of n s :: tags).
  assert (make_tag (VDict d) = Ok (tag_of n s)) as Hm
    by (apply make_tag_Ok; by exists d, n, s).
  cbn [mapM]. rewrite Hm. cbn [mbind result_mbind result_bind]. by rewrite IH.
Qed.



(** ** The generators *)

Lemma yield_probes_Ok l ps :
  mapM Probe l = Ok ps → yield_probes l = (Yield <$> ps, Done).
Proof.
  revert ps. induction l as [|d l IH]; intros ps; simpl; [by intros [= <-]|].
  rewrite bind_Ok. intros (p & -> & H). apply bind_Ok in H as (ps' & Hps & [= <-]).
  by rewrite (IH _ Hps).
Qed.


Lemma yield_probes_not_Pending l evs : yield_probes l ≠ (evs, Pending).
Proof.
  revert evs. induction l as [|d l IH]; intros evs; simpl; [done|].
  destruct (Probe d); [|done]. destruct (yield_probes l) as [evs' o] eqn:E.
  unfold emit. simpl. intros [= _ ->]. by eapply IH.
Qed.

Lemma get_probe_data_not_Pending v evs : get_probe_data v ≠ (evs, Pending).
Proof.
  unfold get_probe_data. destruct (iter v); [apply yield_probes_not_Pending | done].
Qed.

Lemma page_head_Ok r c u l :
  page r c u l → ∃ b, page_head r = Ok (VDict b, c, u) ∧ dict_get "results" b = Some (VList l).
Proof.
  intros (Hs & b & Hb & Hc & Hu & Hl). exists b. split; [|done].
  unfold page_head, json. rewrite Hs, Hb. simpl. by rewrite Hc, Hu.
Qed.

(** One turn of the loop, unfolded. *)
Lemma get_probes_loop_eq replies r :
  get_probes_loop replies r =
  match page_head r with
  | Raise e => ([], Raised e)
  | Ok (data, count, url) =>
    if negb (truthy count) then ([], Done)
    else
      match subscript data "results" with
      | Raise e => ([], Raised e)
      | Ok results =>
        match get_probe_data results with
        | (evs, Done) =>
          if negb (truthy url) then (evs, Done)
          else emit evs (requests_get url [] replies get_probes_loop)
        | (evs, o) => (evs, o)
        end
      end
  end.
Proof. by destruct replies. Qed.

(** A page whose records normalise: the probes are yielded, then the loop
    ends or asks for the next page. *)
Lemma loop_page replies r c u l ps :
  page r c u l → truthy c = true → mapM Probe l = Ok ps →
  get_probes_loop replies r =
  if truthy u then emit (Yield <$> ps) (requests_get u [] replies get_probes_loop)
  else (Yield <$> ps, Done).
Proof.
  intros Hp Hc Hps. destruct (page_head_Ok _ _ _ _ Hp) as (b & Hh & Hl).
  rewrite get_probes_loop_eq, Hh, Hc. simpl. rewrite Hl.
  unfold get_probe_data. simpl. rewrite (yield_probes_Ok _ _ Hps).
  by destruct (truthy u).
Qed.


Lemma emit_pair evs evs' o : emit evs (evs', o) = (evs ++ evs', o).
Proof. done. Qed.

Lemma emit_emit evs1 evs2 k : emit evs1 (emit evs2 k) = emit (evs1 ++ evs2) k.
Proof. destruct k. unfold emit. simpl. by rewrite app_assoc. Qed.

Lemma emit_outcome evs k : (emit evs k).2 = k.2.
Proof. done. Qed.

Lemma requests_get_nil u ps k : requests_get u ps [] k = ([Get u ps], Pending).
Proof. done. Qed.

Lemma requests_get_cons u ps x replies :
  requests_get u ps (x :: replies) get_probes_loop = emit [Get u ps] (resume x replies).
Proof. by destruct x. Qed.

(** A generator that waits on a request goes on, when the answer comes, from
    where it stands: what it did before is unchanged. *)
Lemma loop_resume_step before x after :
  (∀ u ps evs, requests_get u ps before get_probes_loop = (evs, Pending) →
     requests_get u ps (before ++ x :: after) get_probes_loop
     = emit evs (resume x after)) →
  ∀ r evs, get_probes_loop before r = (evs, Pending) →
    get_probes_loop (before ++ x :: after) r = emit evs (resume x after).
Proof.
  intros Hreq r evs. rewrite !get_probes_loop_eq.
  destruct (page_head r) as [[[data c] u]|]; [|done].
  destruct (negb (truthy c)); [done|].
  destruct (subscript data "results") as [results|]; [|done].
  destruct (get_probe_data results) as [evs1 o] eqn:E.
  destruct o; [|done|by destruct (get_probe_data_not_Pending _ _ E)].
  destruct (negb (truthy u)); [done|].
  destruct (requests_get u [] before get_probes_loop) as [evs2 o2] eqn:E2.
  rewrite emit_pair. intros [= <- ->].
  by rewrite (Hreq _ _ _ E2), emit_emit.
Qed.

Lemma requests_get_resume before x after u ps evs :
  requests_get u ps before get_probes_loop = (evs, Pending) →
  requests_get u ps (before ++ x :: after) get_probes_loop
  = emit evs (resume x after).
Proof.
  revert u ps evs. induction before as [|y before IH]; intros u ps evs.
  - rewrite requests_get_nil. intros [= <-]. simpl. by rewrite requests_get_cons.
  - simpl. rewrite !requests_get_cons. destruct y as [r|e]; [|done]. simpl.
    destruct (get_probes_loop before r) as [evs' o] eqn:E.
    rewrite emit_pair. intros [= <- ->].
    by rewrite (loop_resume_step _ _ _ IH _ _ E), emit_emit.
Qed.

Lemma get_probes_loop_resume before x after r evs :
  get_probes_loop before r = (evs, Pending) →
  get_probes_loop (before ++ x :: after) r = emit evs (resume x after).
Proof.
  apply loop_resume_step. intros u ps evs'. apply requests_get_resume.
Qed.

Lemma get_probes_resume before x after evs :
  get_probes before = (evs, Pending) →
  get_probes (before ++ x :: after) = emit evs (resume x after).
Proof. apply requests_get_resume. Qed.



Lemma yields_app evs1 evs2 : yields (evs1 ++ evs2) = yields evs1 ++ yields evs2.
Proof. apply omap_app. Qed.

Lemma requests_app evs1 evs2 :
  requests (evs1 ++ evs2) = requests evs1 ++ requests evs2.
Proof. apply omap_app. Qed.

Lemma yields_Yield ps : yields (Yield <$> ps) = ps.
Proof.
  induction ps as [|p ps IH]; [done|].
  change (yields (Yield <$> p :: ps)) with (p :: yields (Yield <$> ps)). by rewrite IH.
Qed.

Lemma requests_Yield ps : requests (Yield <$> ps) = [].
Proof.
  induction ps as [|p ps IH]; [done|].
  by change (requests (Yield <$> p :: ps)) with (requests (Yield <$> ps)).
Qed.

(** C5: against three pages with a count that is not zero, the first two
    with a next reference that is true in a condition (not null, not empty)
    and the third with a null one, the paginator sends
    three requests, the first with the page size and the sort order and the
    next two to the references of pages one and two, yields the probes of
    the three pages in order, and returns after page three. *)
Theorem C5_three_pages r1 r2 r3 c1 c2 c3 u1 u2 l1 l2 l3 ps1 ps2 ps3 rest :
  page r1 c1 u1 l1 → page r2 c2 u2 l2 → page r3 c3 VNone l3 →
  truthy c1 = true → truthy c2 = true → truthy c3 = true →
  truthy u1 = true → truthy u2 = true →
  mapM Probe l1 = Ok ps1 → mapM Probe l2 = Ok ps2 → mapM Probe l3 = Ok ps3 →
  let run := get_probes (Ok r1 :: Ok r2 :: Ok r3 :: rest) in
  run = ([Get (VStr API_PROBES) first_params] ++ (Yield <$> ps1) ++
         [Get u1 []] ++ (Yield <$> ps2) ++
         [Get u2 []] ++ (Yield <$> ps3), Done) ∧
  yields run.1 = ps1 ++ ps2 ++ ps3 ∧
  requests run.1 = [(VStr API_PROBES, first_params); (u1, []); (u2, [])].
Proof.
  intros Hp1 Hp2 Hp3 Hc1 Hc2 Hc3 Hu1 Hu2 H1 H2 H3 run.
  assert (Hrun : run = ([Get (VStr API_PROBES) first_params] ++ (Yield <$> ps1) ++
         [Get u1 []] ++ (Yield <$> ps2) ++ [Get u2 []] ++ (Yield <$> ps3), Done)).
  { unfold run, get_probes. rewrite requests_get_cons. cbn [resume].
    rewrite (loop_page _ _ _ _ _ _ Hp1 Hc1 H1), Hu1, requests_get_cons. cbn [resume].
    rewrite (loop_page _ _ _ _ _ _ Hp2 Hc2 H2), Hu2, requests_get_cons. cbn [resume].
    rewrite (loop_page _ _ _ _ _ _ Hp3 Hc3 H3). simpl truthy. cbv iota.
    rewrite !emit_emit, emit_pair. f_equal. by rewrite <- !app_assoc. }
  rewrite Hrun. split; [done|]. cbn [fst].
  rewrite !yields_app, !requests_app, !yields_Yield, !requests_Yield. done.
Qed.

(** ** The rows *)

Lemma setattrs_total slots kwargs o :
  Forall (λ k, k ∈ slots) kwargs.*1 → is_Ok (setattrs slots kwargs o).
Proof.
  intros Hall. destruct (setattrs slots kwargs o) as [o'|e] eqn:E; [by eexists|].
  apply setattrs_Raise in E as [(k & Hk & Hn) _].
  rewrite Forall_forall in Hall. destruct Hn. by apply Hall.
Qed.

Lemma Probe_point d p :
  Probe (VDict d) = Ok p →
  ∃ g x y, getattr p "geometry" = Ok g ∧ getattr g "coordinates" = Ok (point_of x y).
Proof.
  intros H. destruct (Probe_coordinates _ _ H) as (g & pt & Hg & Hpt & Hcase).
  destruct Hcase as [[_ (kw & _ & Hc)]|[_ ->]].
  - apply coordinates_point_Ok in Hc as (x & y & ->). by exists g, x, y.
  - by exists g, (VFloat (-1111.0)%float), (VFloat (-1111.0)%float).
Qed.

Lemma construct_Status_name v s :
  construct Status_init v = Ok s → ∃ nm, getattr s "name" = Ok nm ∧
    ∀ kw, v = VDict kw → truthy v = true → nm = raw "name" kw.
Proof.
  intros H. apply construct_Ok in H as [[Ht (kw & -> & _ & H)]|[Ht H]];
    apply Status_init_Ok in H as (o & -> & Ho).
  - exists (raw "name" kw). split.
    + apply (filled_slot _ _ _ "name" Ho). slot_in.
    + by intros kw' [= <-] _.
  - exists (raw "name" []). split.
    + apply (filled_slot _ _ _ "name" Ho). slot_in.
    + intros kw' _ Ht'. congruence.
Qed.

(** The slugs of the tags made from the mappings [ts]. *)
Lemma make_tags_slugs ts tags :
  mapM make_tag ts = Ok tags →
  ∃ slugs, mapM (λ t, getattr t "slug") tags = Ok slugs ∧
    Forall2 (λ t sl, subscript t "slug" = Ok sl) ts slugs.
Proof.
  rewrite mapM_Ok. induction 1 as [|t tg ts tags Ht _ (slugs & IH & Hall)].
  - exists []. by split; [|constructor].
  - apply make_tag_Ok in Ht as (d & n & s & -> & Hn & Hs & ->).
    exists (s :: slugs). split.
    + cbn [mapM]. change (getattr (tag_of n s) "slug") with (Ok s).
      cbn [mbind result_mbind result_bind]. by rewrite IH.
    + constructor; [|done]. simpl. by rewrite Hs.
Qed.

Section Rows.

Variable repr_other : value → string.
Variable upper_unicode : string → string.

(** The sixteen values of the row of a normalised probe, in terms of the
    raw record: the scalar slots, the two coordinates, the two flags, the
    name of the status in upper case and the joined slugs. *)
Lemma row_values_Probe d p :
  Probe (VDict d) = Ok p →
  ∃ x y nm slugs,
    (ge ← getattr p "geometry"; getattr ge "coordinates") = Ok (point_of x y) ∧
    (st ← getattr p "status"; getattr st "name") = Ok nm ∧
    (ts ← getattr p "tags"; ts ← iter ts; mapM (λ t, getattr t "slug") ts) = Ok slugs ∧
    row_values upper_unicode p =
      (name ← upper upper_unicode nm; tags ← join TAG_SEP slugs;
       Ok [raw "id" d; raw "asn_v4" d; raw "address_v4" d; raw "prefix_v4" d;
           raw "asn_v6" d; raw "address_v6" d; raw "prefix_v6" d;
           raw "country_code" d; y; x;
           flag (raw "is_anchor" d); flag (raw "is_public" d);
           raw "last_connected" d; name; raw "status_since" d; VStr tags]).
Proof.
  intros H. destruct (Probe_point _ _ H) as (g & x & y & Hg & Hc).
  apply Probe_Ok in H as (o0 & s & g' & ts & tags & -> & Ho & Hs & _ & _ & Htg).
  rewrite probe_geometry in Hg. injection Hg as ->.
  destruct (construct_Status_name _ _ Hs) as (nm & Hnm & _).
  destruct (make_tags_slugs _ _ Htg) as (slugs & Hsl & _).
  exists x, y, nm, slugs.
  assert (Hk : ∀ k, k ∈ Probe_slots → k ≠ "tags" → k ≠ "geometry" → k ≠ "status" →
    getattr (VObj CProbe (<["tags":=VList tags]> (<["geometry":=g]>
      (<["status":=s]> o0)))) k = Ok (raw k d)).
  { intros k Hin ? ? ?. rewrite probe_scalar by done. by eapply filled_slot. }
  unfold row_values.
  rewrite probe_geometry, probe_status, probe_tags.
  rewrite !Hk by (done || slot_in).
  cbn [mbind result_mbind result_bind iter].
  rewrite Hc, Hnm, Hsl. cbn [mbind result_mbind result_bind].
  destruct (point_of_attrs x y) as (_ & _ & -> & ->).
  cbn [mbind result_mbind result_bind]. done.
Qed.

(** *** Splitting a line *)

Lemma split_on_nosep c s : occurs c s = false → split_on c s = [s].
Proof.
  induction s as [|a s IH]; simpl; [done|].
  destruct (Ascii.eqb a c); [done|]. simpl. intros H. by rewrite (IH H).
Qed.

Lemma split_on_app c s t :
  occurs c s = false → split_on c (s +:+ String c t) = s :: split_on c t.
Proof.
  induction s as [|a s IH]; simpl.
  - by rewrite Ascii.eqb_refl.
  - destruct (Ascii.eqb a c); [done|]. simpl. intros H. by rewrite (IH H).
Qed.

Lemma split_on_concat_with c fields :
  fields ≠ [] → Forall (λ f, occurs c f = false) fields →
  split_on c (concat_with (String c EmptyString) fields) = fields.
Proof.
  induction fields as [|f [|f' fields] IH]; [done| |].
  - intros _ Hall. inversion Hall; subst. by apply split_on_nosep.
  - intros _ Hall. inversion Hall as [|? ? Hf Hall']; subst.
    change (concat_with (String c EmptyString) (f :: f' :: fields))
      with (f +:+ String c (concat_with (String c EmptyString) (f' :: fields))).
    rewrite split_on_app by done. f_equal. by apply IH.
Qed.

Lemma ends_with_refl s : ends_with s s = true.
Proof. destruct s; simpl; [done|]. by rewrite Ascii.eqb_refl, String.eqb_refl. Qed.

Lemma ends_with_app s t suf : ends_with t suf = true → ends_with (s +:+ t) suf = true.
Proof.
  intros H. induction s as [|a s IH]; [done|].
  change (String a s +:+ t) with (String a (s +:+ t)). cbn [ends_with].
  rewrite IH. by destruct (String.eqb _ _).
Qed.

Lemma ends_with_suffix s suf : ends_with s suf = true → ∃ pre, s = pre +:+ suf.
Proof.
  induction s as [|a s IH]; cbn [ends_with].
  - destruct (String.eqb "" suf) eqn:E; [|done].
    apply String.eqb_eq in E as <-. by exists "".
  - destruct (String.eqb (String a s) suf) eqn:E.
    + apply String.eqb_eq in E as <-. by exists "".
    + intros H. destruct (IH H) as [pre ->]. by exists (String a pre).
Qed.

(** *** The main loop *)



Lemma main_loop_rows evs o n texts :
  mapM (written repr_other upper_unicode) (yields evs) = Ok texts →
  file (main_loop repr_other upper_unicode evs o n) = texts ∧
  exit (main_loop repr_other upper_unicode evs o n) = o.
Proof.
  revert n texts. induction evs as [|[u q|p] evs IH]; intros n texts.
  - intros [= <-]. simpl. by destruct o.
  - apply IH.
  - change (yields (Yield p :: evs)) with (p :: yields evs). cbn [mapM main_loop].
    rewrite bind_Ok. intros (l & -> & H). apply bind_Ok in H as (ls & Hls & [= <-]).
    destruct (IH (n + 1) _ Hls) as [-> ->]. done.
Qed.



(** *** The fields of a row *)

Lemma upper_Ok v w :
  upper upper_unicode v = Ok w ↔ ∃ s, v = VStr s ∧ w = VStr (str_upper upper_unicode s).
Proof.
  destruct v; simpl; split; try done; try by intros (? & [=] & _).
  - intros [= <-]. by eexists.
  - by intros (? & [= <-] & ->).
Qed.

Lemma join_Ok sep items s :
  join sep items = Ok s ↔ ∃ ss, items = VStr <$> ss ∧ s = concat_with sep ss.
Proof.
  unfold join. rewrite bind_Ok. split.
  - intros (ss & Hss & [= <-]). exists ss. split; [|done].
    apply mapM_Ok in Hss. induction Hss as [|v s' items ss Hv _ IH]; [done|].
    destruct v; try done. injection Hv as ->. by rewrite IH.
  - intros (ss & -> & ->). exists ss. split; [|done].
    apply mapM_Ok. induction ss; by constructor.
Qed.

Lemma str_flag v : str repr_other (flag v) = if truthy v then "1" else "0".
Proof. unfold flag. by destruct (truthy v). Qed.

(** C2: the line of a normalised probe is the join, with commas, of sixteen
    texts in this order: id, asn_v4, address_v4, prefix_v4, asn_v6,
    address_v6, prefix_v6, country_code, latitude, longitude, the anchor flag
    and the public flag as 1 or 0, last_connected, the name of the status in
    upper case, status_since, and the slugs of the tags joined with [+];
    when no text holds a comma, splitting the line at the commas gives these
    sixteen fields back. *)
Theorem C2_sixteen_fields d p line :
  Probe (VDict d) = Ok p → row repr_other upper_unicode p = Ok line →
  ∃ pt lat lng name slugs,
    (ge ← getattr p "geometry"; getattr ge "coordinates") = Ok pt ∧
    getattr pt "lat" = Ok lat ∧ getattr pt "lng" = Ok lng ∧
    (st ← getattr p "status"; getattr st "name") = Ok (VStr name) ∧
    (ts ← getattr p "tags"; ts ← iter ts; mapM (λ t, getattr t "slug") ts)
      = Ok (VStr <$> slugs) ∧
    let fields :=
      [str repr_other (raw "id" d); str repr_other (raw "asn_v4" d);
       str repr_other (raw "address_v4" d); str repr_other (raw "prefix_v4" d);
       str repr_other (raw "asn_v6" d); str repr_other (raw "address_v6" d);
       str repr_other (raw "prefix_v6" d); str repr_other (raw "country_code" d);
       str repr_other lat; str repr_other lng;
       if truthy (raw "is_anchor" d) then "1" else "0";
       if truthy (raw "is_public" d) then "1" else "0";
       str repr_other (raw "last_connected" d);
       str_upper upper_unicode name;
       str repr_other (raw "status_since" d);
       concat_with TAG_SEP slugs] in
    line = concat_with COL_SEP fields ∧
    length fields = 16%nat ∧
    (Forall (λ f, occurs comma f = false) fields → split_on comma line = fields).
Proof.
  intros Hp Hrow.
  destruct (row_values_Probe _ _ Hp) as (x & y & nm & slugs & Hpt & Hnm & Hsl & Hvs).
  unfold row in Hrow. apply bind_Ok in Hrow as (vs & Hvs' & [= <-]).
  rewrite Hvs in Hvs'. apply bind_Ok in Hvs' as (name' & Hup & Hvs').
  apply bind_Ok in Hvs' as (tg & Hjoin & [= <-]).
  apply upper_Ok in Hup as (name & -> & ->).
  apply join_Ok in Hjoin as (ss & -> & ->).
  exists (point_of x y), y, x, name, ss.
  destruct (point_of_attrs x y) as (_ & _ & Hlat & Hlng).
  split_and!; [done..|]. intros fields.
  assert (Hline : concat_with COL_SEP (str repr_other <$>
      [raw "id" d; raw "asn_v4" d; raw "address_v4" d; raw "prefix_v4" d;
       raw "asn_v6" d; raw "address_v6" d; raw "prefix_v6" d;
       raw "country_code" d; y; x; flag (raw "is_anchor" d);
       flag (raw "is_public" d); raw "last_connected" d;
       VStr (str_upper upper_unicode name); raw "status_since" d;
       VStr (concat_with TAG_SEP ss)]) = concat_with COL_SEP fields).
  { unfold fields. cbn [fmap list_fmap]. by rewrite !str_flag. }
  split_and!; [done|done|].
  intros Hall. rewrite Hline. by apply (split_on_concat_with comma).
Qed.

(** C3: a record with recognised keys, a full status whose name is a string,
    the geometry coordinates [[10.0, 20.0]] and the two tags [a]/[a1] and
    [b]/[b2] is normalised and its row ends in [,a1+b2], the slugs as they
    are, joined with [+]; the latitude field is [20.0] and the longitude
    field is [10.0]. *)
Theorem C3_row_of_record d st nm g :
  Forall (λ k, k ∈ Probe_slots) d.*1 →
  dict_get "status" d = Some (VDict st) →
  Forall (λ k, k ∈ Status_slots) st.*1 →
  is_Some (dict_get "since" st) → is_Some (dict_get "id" st) →
  dict_get "name" st = Some (VStr nm) →
  dict_get "geometry" d = Some (VDict g) →
  Forall (λ k, k ∈ Geometry_slots) g.*1 →
  dict_get "coordinates" g = Some (VList [VFloat 10.0%float; VFloat 20.0%float]) →
  dict_get "tags" d = Some (VList [VDict [("name", VStr "a"); ("slug", VStr "a1")];
                                   VDict [("name", VStr "b"); ("slug", VStr "b2")]]) →
  ∃ p line fields,
    Probe (VDict d) = Ok p ∧ row repr_other upper_unicode p = Ok line ∧
    ends_with line ",a1+b2" = true ∧
    line = concat_with COL_SEP fields ∧ length fields = 16%nat ∧
    fields !! 8%nat = Some "20.0" ∧ fields !! 9%nat = Some "10.0" ∧
    fields !! 15%nat = Some "a1+b2".
Proof.
  intros Hd Hst Hstk _ _ Hnm Hg Hgk Hc Htags.
  (* the record is normalised *)
  destruct (setattrs_total Probe_slots d (default_fill Probe_slots) Hd) as [o0 Ho0].
  destruct (setattrs_total Status_slots st (default_fill Status_slots) Hstk) as [os Hos].
  destruct (Geometry_of_list _ _ Hc) as [_ Hgood].
  destruct (Hgood Hgk) as [ge Hge]; [by right|].
  set (tags := [tag_of (VStr "a") (VStr "a1"); tag_of (VStr "b") (VStr "b2")]).
  set (p := VObj CProbe (<["tags":=VList tags]> (<["geometry":=ge]>
              (<["status":=VObj CStatus os]> o0)))).
  assert (Hp : Probe (VDict d) = Ok p).
  { apply Probe_Ok. eexists o0, (VObj CStatus os), ge, _, tags.
    rewrite (raw_Some _ _ _ Hst), (raw_Some _ _ _ Hg), (raw_Some _ _ _ Htags).
    split_and!; [done|done| |done|done|done].
    apply construct_Ok. left. split; [by eapply dict_get_nonempty|].
    exists st. split_and!; [done| |by apply Status_init_Ok; exists os].
    intros Hin. rewrite Forall_forall in Hstk. specialize (Hstk _ Hin).
    slot_out Hstk. }
  (* its row *)
  destruct (row_values_Probe _ _ Hp) as (x & y & nm' & slugs & Hpt & Hnm' & Hsl & Hvs).
  rewrite (Probe_pair _ _ _ _ _ Hp Hg Hc) in Hpt.
  assert (Hxy : point_of (VFloat 10.0%float) (VFloat 20.0%float) = point_of x y)
    by congruence.
  assert (x = VFloat 10.0%float ∧ y = VFloat 20.0%float) as [-> ->].
  { destruct (point_of_attrs x y) as (Hx & Hy & _). rewrite <- Hxy in Hx, Hy.
    destruct (point_of_attrs (VFloat 10.0%float) (VFloat 20.0%float)) as (Hx' & Hy' & _).
    split; congruence. }
  assert (nm' = VStr nm) as ->.
  { unfold p in Hnm'. rewrite probe_status in Hnm'.
    cbn [mbind result_mbind result_bind getattr] in Hnm'.
    rewrite (filled_slot _ _ _ "name" Hos) in Hnm' by slot_in.
    rewrite (raw_Some _ _ _ Hnm) in Hnm'. by injection Hnm' as <-. }
  assert (slugs = [VStr "a1"; VStr "b2"]) as ->.
  { unfold p in Hsl. rewrite probe_tags in Hsl. by injection Hsl as <-. }
  eexists p, _, _. split; [done|]. unfold row. rewrite Hvs.
  cbn [upper join mapM mbind result_mbind result_bind fmap list_fmap].
  split; [reflexivity|]. split_and!; [|done..].
  cbn [concat_with]. do 14 (apply ends_with_app; apply ends_with_app).
  apply ends_with_app. reflexivity.
Qed.

(** C1: a record with a key that is not a slot of [Probe] is not normalised:
    the construction raises, an [AttributeError] or a [TypeError], whatever
    else the record holds. *)
Theorem C1_unknown_key_raises d k :
  k ∈ d.*1 → k ∉ Probe_slots →
  ∃ e, Probe (VDict d) = Raise e ∧ (e = AttributeError ∨ e = TypeError).
Proof. apply Probe_unknown_key. Qed.

End Rows.

(** ** The properties on the sample data *)

Ltac evaluated := vm_compute; reflexivity.

Lemma sample_page r c u l : r = page_of c u l → page r c u l.
Proof. intros ->. split; [done|]. eexists. by split_and!. Qed.

(** The record with the key [total_uptime] is not normalised, the record
    without it is. *)
Lemma C1_counterexample :
  Probe (VDict sample_unknown_key) = Raise AttributeError ∧
  is_Ok (Probe (VDict sample_record)).
Proof. split; [evaluated | eexists; evaluated]. Qed.

Lemma C1_witness :
  "total_uptime" ∈ sample_unknown_key.*1 ∧ ("total_uptime" ∉ Probe_slots) ∧
  ∃ e, Probe (VDict sample_unknown_key) = Raise e ∧
    (e = AttributeError ∨ e = TypeError).
Proof.
  assert (H1 : "total_uptime" ∈ sample_unknown_key.*1) by slot_in.
  assert (H2 : "total_uptime" ∉ Probe_slots) by slot_in.
  split_and!; [exact H1 | exact H2 |].
  exact (C1_unknown_key_raises sample_unknown_key "total_uptime" H1 H2).
Defined.

(** The row of the sample record has sixteen fields, not fifteen. *)
Lemma C2_counterexample :
  ∃ p, Probe (VDict sample_record) = Ok p ∧
    ∀ ro uu, ∃ line, row ro uu p = Ok line ∧
      length (split_on comma line) = 16%nat ∧
      length (split_on comma line) ≠ 15%nat.
Proof.
  eexists. split; [evaluated|]. intros ro uu. eexists. split; [evaluated|].
  split; [evaluated | by vm_compute].
Qed.

Lemma C2_witness :
  ∃ p line, Probe (VDict sample_record) = Ok p ∧
    ∀ ro uu, row ro uu p = Ok line ∧
      ∃ fields, line = concat_with COL_SEP fields ∧ length fields = 16%nat.
Proof.
  eexists _, "6001,,,,,,,,20.0,10.0,0,0,,CONNECTED,,a1+b2".
  split; [evaluated|]. intros ro uu.
  match goal with
  | |- row _ _ ?p = ?l ∧ _ => assert (Hrow : row ro uu p = l) by evaluated
  end.
  split; [exact Hrow|].
  destruct (C2_sixteen_fields ro uu sample_record _ _ ltac:(evaluated) Hrow)
    as (pt & lat & lng & name & slugs & _ & _ & _ & _ & _ & Hline & Hlen & _).
  eexists. split; [exact Hline | exact Hlen].
Defined.

(** The row of the sample record ends in the slugs as they are. *)
Lemma C3_counterexample :
  ∃ p, Probe (VDict sample_record) = Ok p ∧
    ∀ ro uu, row ro uu p = Ok "6001,,,,,,,,20.0,10.0,0,0,,CONNECTED,,a1+b2" ∧
      ends_with "6001,,,,,,,,20.0,10.0,0,0,,CONNECTED,,a1+b2" ",A1+B2" = false.
Proof. eexists. split; [evaluated|]. intros ro uu. split; evaluated. Qed.

Lemma C3_witness :
  dict_get "tags" sample_record = Some sample_tags ∧
  ∀ ro uu, ∃ p line fields,
    Probe (VDict sample_record) = Ok p ∧ row ro uu p = Ok line ∧
    ends_with line ",a1+b2" = true ∧
    line = concat_with COL_SEP fields ∧ length fields = 16%nat ∧
    fields !! 8%nat = Some "20.0" ∧ fields !! 9%nat = Some "10.0" ∧
    fields !! 15%nat = Some "a1+b2".
Proof.
  split; [evaluated|]. intros ro uu.
  apply (C3_row_of_record ro uu sample_record
           [("since", VStr "2016-05-23T04:42:00Z"); ("id", VInt 1);
            ("name", VStr "Connected")]
           "Connected"
           [("type", VStr "Point");
            ("coordinates", VList [VFloat 10.0%float; VFloat 20.0%float])]).
  - repeat constructor; slot_in.
  - evaluated.
  - repeat constructor; slot_in.
  - eexists; evaluated.
  - eexists; evaluated.
  - evaluated.
  - evaluated.
  - repeat constructor; slot_in.
  - evaluated.
  - evaluated.
Defined.



(** What the run on the sample record with the incomplete tag raises. *)
Lemma sample_incomplete_tag_raises :
  Probe (VDict sample_incomplete_tag) = Raise (KeyError "slug").
Proof. evaluated. Qed.

(** Page three with a count of zero: its record normalises and is not
    yielded, two probes come out of three records.  Page one with the empty
    string as its next reference: one request and no more. *)
Lemma C5_counterexample :
  (let run := get_probes [Ok sample_page1; Ok sample_page2; Ok sample_page3_zero] in
   succeeds (Probe (VDict [("id", VInt 6005)])) = true ∧
   run.2 = Done ∧ length (yields run.1) = 2%nat ∧
   requests run.1 =
     [(VStr API_PROBES, first_params);
      (VStr "https://atlas.ripe.net/api/v2/probes/?page=2", []);
      (VStr "https://atlas.ripe.net/api/v2/probes/?page=3", [])]) ∧
  (let run := get_probes [Ok sample_page1_empty_next; Ok sample_page2; Ok sample_page3] in
   run.2 = Done ∧ length (yields run.1) = 1%nat ∧
   requests run.1 = [(VStr API_PROBES, first_params)]).
Proof. split; split_and!; evaluated. Qed.

Lemma C5_witness :
  page sample_page1 (VInt 3) (VStr "https://atlas.ripe.net/api/v2/probes/?page=2")
    [VDict sample_record] ∧
  ∃ ps1 ps2 ps3,
    mapM Probe [VDict sample_record] = Ok ps1 ∧
    mapM Probe [VDict sample_no_coordinates] = Ok ps2 ∧
    mapM Probe [VDict [("id", VInt 6005)]] = Ok ps3 ∧
    let run := get_probes [Ok sample_page1; Ok sample_page2; Ok sample_page3] in
    run.2 = Done ∧ yields run.1 = ps1 ++ ps2 ++ ps3 ∧
    requests run.1 =
      [(VStr API_PROBES, first_params);
       (VStr "https://atlas.ripe.net/api/v2/probes/?page=2", []);
       (VStr "https://atlas.ripe.net/api/v2/probes/?page=3", [])].
Proof.
  split; [by apply sample_page|].
  eexists _, _, _. split; [evaluated|]. split; [evaluated|]. split; [evaluated|].
  destruct (C5_three_pages sample_page1 sample_page2 sample_page3
              (VInt 3) (VInt 3) (VInt 3)
              (VStr "https://atlas.ripe.net/api/v2/probes/?page=2")
              (VStr "https://atlas.ripe.net/api/v2/probes/?page=3")
              [VDict sample_record] [VDict sample_no_coordinates]
              [VDict [("id", VInt 6005)]] _ _ _ []
              ltac:(by apply sample_page) ltac:(by apply sample_page)
              ltac:(by apply sample_page)
              eq_refl eq_refl eq_refl eq_refl eq_refl
              ltac:(evaluated) ltac:(evaluated) ltac:(evaluated))
    as (Hrun & Hy & Hr).
  split; [by rewrite Hrun|]. split; [exact Hy | exact Hr].
Defined.



Lemma C7_witness :
  unsupplied "coordinates" [("type", VStr "Point")] ∧
  ∃ p, Probe (VDict sample_no_coordinates) = Ok p ∧
    (g ← getattr p "geometry"; getattr g "coordinates") = Ok sentinel.
Proof.
  split; [exact I|]. eexists. split; [evaluated|].
  apply (C7_sentinel_point sample_no_coordinates _ ltac:(evaluated)).
  right. exists [("type", VStr "Point")]. split; [evaluated | exact I].
Defined.

Lemma C8_witness :
  ∃ p, Probe (VDict sample_record) = Ok p ∧
    ∃ pt, (ge ← getattr p "geometry"; getattr ge "coordinates") = Ok pt ∧
      getattr pt "x" = Ok (VFloat 10.0%float) ∧
      getattr pt "y" = Ok (VFloat 20.0%float) ∧
      getattr pt "lng" = Ok (VFloat 10.0%float) ∧
      getattr pt "lat" = Ok (VFloat 20.0%float).
Proof.
  eexists. split; [evaluated|].
  apply (C8_point_of_pair sample_record _
           [("type", VStr "Point");
            ("coordinates", VList [VFloat 10.0%float; VFloat 20.0%float])]
           _ _ ltac:(evaluated)); evaluated.
Defined.

Lemma C9_witness :
  ∃ p, Probe (VDict sample_no_coordinates) = Ok p ∧
    ∃ s g pt tags,
      getattr p "status" = Ok s ∧ instance_of CStatus Status_slots s ∧
      (unsupplied "status" sample_no_coordinates →
       s = VObj CStatus (default_fill Status_slots)) ∧
      getattr p "geometry" = Ok g ∧ instance_of CGeometry Geometry_slots g ∧
      getattr g "coordinates" = Ok pt ∧ instance_of CPoint Point_slots pt ∧
      getattr p "tags" = Ok (VList tags) ∧
      Forall (instance_of CTag Tag_slots) tags ∧
      (unsupplied "tags" sample_no_coordinates → tags = []).
Proof.
  eexists. split; [evaluated|].
  apply (C9_probe_shape sample_no_coordinates _ ltac:(evaluated)).
Defined.

Lemma C10_witness :
  length [VFloat 10.0%float] ≠ 2%nat ∧
  is_Raise (Probe (VDict sample_one_coordinate)) ∧
  construct Geometry_init (VDict [("coordinates", VList [VFloat 10.0%float])])
  = Raise ValueError.
Proof.
  assert (Hlen : length [VFloat 10.0%float] ≠ 2%nat) by (simpl; lia).
  split; [exact Hlen|].
  destruct (C10_coordinates_length sample_one_coordinate
              [("coordinates", VList [VFloat 10.0%float])] [VFloat 10.0%float]
              ltac:(evaluated) ltac:(evaluated)) as [Hbad _].
  destruct (Hbad ltac:(discriminate) Hlen) as (_ & Hv & Hp).
  split; [exact Hp|]. apply Hv. repeat constructor; slot_in.
Defined.

(** * Further properties *)

(** ** The paginator *)

Lemma page_head_200 r b c u :
  status_code r = 200 → body r = Some (VDict b) →
  dict_get "count" b = Some c → dict_get "next" b = Some u →
  page_head r = Ok (VDict b, c, u).
Proof.
  intros Hs Hb Hc Hu. unfold page_head, json. rewrite Hs, Hb. simpl.
  by rewrite Hc, Hu.
Qed.

(** An empty catalogue: when the first page reports a count that is zero,
    one request is sent, nothing is yielded and the generator returns; the
    results are not read; [main] writes the header alone and reports zero
    probes. *)
Theorem empty_catalogue r b c replies :
  status_code r = 200 → body r = Some (VDict b) →
  dict_get "count" b = Some c → is_Some (dict_get "next" b) →
  truthy c = false →
  get_probes (Ok r :: replies) = ([Get (VStr API_PROBES) first_params], Done) ∧
  ∀ ro uu, main ro uu (Ok r :: replies)
           = Output [header] ["- fetched details of 0 probes."] Done.
Proof.
  intros Hs Hb Hc [u Hu] Ht.
  assert (Hrun : get_probes (Ok r :: replies)
                 = ([Get (VStr API_PROBES) first_params], Done)).
  { unfold get_probes. rewrite requests_get_cons. cbn [resume].
    rewrite get_probes_loop_eq, (page_head_200 _ _ _ _ Hs Hb Hc Hu).
    by rewrite Ht. }
  split; [done|]. intros ro uu. unfold main. by rewrite Hrun.
Qed.

Lemma empty_catalogue_witness :
  truthy (VInt 0) = false ∧
  get_probes [Ok (page_of (VInt 0) VNone [VDict sample_record]); Ok sample_page2]
  = ([Get (VStr API_PROBES) first_params], Done).
Proof.
  split; [reflexivity|].
  apply (empty_catalogue (page_of (VInt 0) VNone [VDict sample_record])
           [("count", VInt 0); ("next", VNone); ("results", VList [VDict sample_record])]
           (VInt 0) [Ok sample_page2]); try reflexivity.
  by eexists.
Defined.

(** A failure of the transport is not caught and not retried: the generator
    raises it where it waits for the answer, with what it did before
    unchanged. *)
Theorem transport_failure_aborts before e after evs :
  get_probes before = (evs, Pending) →
  get_probes (before ++ Raise e :: after) = (evs, Raised e).
Proof.
  intros H. rewrite (get_probes_resume _ _ _ _ H). cbn [resume].
  by rewrite emit_pair, app_nil_r.
Qed.

Lemma transport_failure_witness :
  ∃ evs, get_probes [Ok sample_page1] = (evs, Pending) ∧
    get_probes ([Ok sample_page1] ++ [Raise RequestException; Ok sample_page3])
    = (evs, Raised RequestException).
Proof.
  eexists. split; [evaluated|].
  apply (transport_failure_aborts [Ok sample_page1] RequestException [Ok sample_page3]).
  evaluated.
Defined.

(** A body that is not what the loop reads raises at that page: no JSON
    gives [ValueError]; a mapping without [count], or with [count] and
    without [next], gives the [KeyError] of the key, whatever the count is;
    a page with a count that is not zero and without [results] gives
    [KeyError] too. *)
Theorem malformed_body_raises r replies :
  status_code r = 200 →
  (body r = None → get_probes_loop replies r = ([], Raised ValueError)) ∧
  (∀ b, body r = Some (VDict b) → dict_get "count" b = None →
     get_probes_loop replies r = ([], Raised (KeyError "count"))) ∧
  (∀ b, body r = Some (VDict b) → is_Some (dict_get "count" b) →
     dict_get "next" b = None →
     get_probes_loop replies r = ([], Raised (KeyError "next"))) ∧
  (∀ b c, body r = Some (VDict b) → dict_get "count" b = Some c →
     truthy c = true → is_Some (dict_get "next" b) →
     dict_get "results" b = None →
     get_probes_loop replies r = ([], Raised (KeyError "results"))).
Proof.
  intros Hs. split_and!.
  - intros Hb. rewrite get_probes_loop_eq. unfold page_head, json.
    by rewrite Hs, Hb.
  - intros b Hb Hc. rewrite get_probes_loop_eq. unfold page_head, json.
    rewrite Hs, Hb. simpl. by rewrite Hc.
  - intros b Hb [c Hc] Hu. rewrite get_probes_loop_eq. unfold page_head, json.
    rewrite Hs, Hb. simpl. rewrite Hc. simpl. by rewrite Hu.
  - intros b c Hb Hc Ht [u Hu] Hr.
    rewrite get_probes_loop_eq, (page_head_200 _ _ _ _ Hs Hb Hc Hu), Ht.
    simpl. by rewrite Hr.
Qed.

Lemma malformed_body_witness :
  get_probes_loop [] (Response 200 (Some (VDict [("count", VInt 0)])))
  = ([], Raised (KeyError "next")).
Proof.
  destruct (malformed_body_raises (Response 200 (Some (VDict [("count", VInt 0)]))) []
              eq_refl) as (_ & _ & H & _).
  apply (H [("count", VInt 0)]); [reflexivity | by eexists | reflexivity].
Defined.

(** A status other than 200 that is not an error status, below 400 or from
    600 on, does not stop the loop: the body is read as for status 200. *)
Theorem other_status_is_read r replies :
  status_code r < 400 ∨ 600 ≤ status_code r →
  get_probes_loop replies r = get_probes_loop replies (Response 200 (body r)).
Proof.
  intros Hr. rewrite !get_probes_loop_eq.
  assert (page_head r = page_head (Response 200 (body r))) as ->; [|done].
  unfold page_head, raise_for_status, json. cbn [status_code body].
  destruct (status_code r =? 200); cbn [negb]; [done|].
  destruct Hr.
  - by replace (400 <=? status_code r) with false by lia.
  - replace (status_code r <? 600) with false by lia.
    by rewrite andb_false_r.
Qed.

Lemma other_status_witness :
  get_probes_loop [] (Response 304 (body sample_page3))
  = get_probes_loop [] (Response 200 (body sample_page3)).
Proof.
  apply (other_status_is_read (Response 304 (body sample_page3)) []).
  left. simpl. lia.
Defined.

(** Any number of pages: against pages with a count that is not zero, each
    but the last with a next reference, the paginator asks for one page at a
    time, the first with the page size and the sort order and each further
    one at the reference of the page before, yields the probes of a page
    before it asks for the next, and returns after the last page. *)
Lemma loop_pages f fs rest :
  Forall well_fetched (f :: fs) → linked (f :: fs) →
  get_probes_loop (((λ f, Ok (f_response f)) <$> fs) ++ rest) (f_response f)
  = (pages_trace (f :: fs), Done).
Proof.
  revert f. induction fs as [|f' fs IH]; intros f Hall Hl.
  - inversion Hall as [|? ? (Hp & Hc & Hps) _]; subst. cbn [linked] in Hl.
    rewrite (loop_page _ _ _ _ _ _ Hp Hc Hps), Hl. cbn [pages_trace].
    by rewrite app_nil_r.
  - inversion Hall as [|? ? (Hp & Hc & Hps) Hall']; subst.
    destruct Hl as [Hu Hl].
    rewrite (loop_page _ _ _ _ _ _ Hp Hc Hps), Hu.
    rewrite fmap_cons. cbn [app]. rewrite requests_get_cons. cbn [resume].
    rewrite (IH _ Hall' Hl). rewrite emit_emit, emit_pair.
    change (pages_trace (f :: f' :: fs))
      with ((Yield <$> f_probes f) ++ Get (f_next f) [] :: pages_trace (f' :: fs)).
    by rewrite <- app_assoc.
Qed.

Lemma pages_trace_yields fs : yields (pages_trace fs) = concat (f_probes <$> fs).
Proof.
  induction fs as [|f fs IH]; [done|].
  cbn [pages_trace]. rewrite yields_app, yields_Yield, fmap_cons. cbn [concat].
  f_equal. destruct fs as [|f' fs]; [done|].
  change (yields (Get (f_next f) [] :: pages_trace (f' :: fs)))
    with (yields (pages_trace (f' :: fs))). apply IH.
Qed.

Lemma pages_trace_requests fs :
  fs ≠ [] → S (length (requests (pages_trace fs))) = length fs.
Proof.
  induction fs as [|f fs IH]; [done|]. intros _.
  cbn [pages_trace]. rewrite requests_app, requests_Yield. cbn [app length].
  destruct fs as [|f' fs]; [done|].
  change (requests (Get (f_next f) [] :: pages_trace (f' :: fs)))
    with ((f_next f, []) :: requests (pages_trace (f' :: fs))).
  cbn [length]. by rewrite IH.
Qed.

Theorem all_pages_in_order fs rest :
  Forall well_fetched fs → linked fs →
  let run := get_probes (((λ f, Ok (f_response f)) <$> fs) ++ rest) in
  run = (Get (VStr API_PROBES) first_params :: pages_trace fs, Done) ∧
  yields run.1 = concat (f_probes <$> fs) ∧
  length (requests run.1) = length fs.
Proof.
  intros Hall Hl run. destruct fs as [|f fs]; [done|].
  assert (Hrun : run = (Get (VStr API_PROBES) first_params :: pages_trace (f :: fs), Done)).
  { unfold run, get_probes. rewrite fmap_cons. cbn [app].
    rewrite requests_get_cons. cbn [resume]. by rewrite (loop_pages _ _ _ Hall Hl). }
  rewrite Hrun. split; [done|]. cbn [fst]. split.
  - change (yields (Get (VStr API_PROBES) first_params :: pages_trace (f :: fs)))
      with (yields (pages_trace (f :: fs))). apply pages_trace_yields.
  - change (requests (Get (VStr API_PROBES) first_params :: pages_trace (f :: fs)))
      with ((VStr API_PROBES, first_params) :: requests (pages_trace (f :: fs))).
    cbn [length]. by rewrite pages_trace_requests.
Qed.

(** ** The main loop *)

Section Main.

Variable repr_other : value → string.
Variable upper_unicode : string → string.

Lemma main_loop_console evs n texts :
  mapM (written repr_other upper_unicode) (yields evs) = Ok texts →
  console (main_loop repr_other upper_unicode evs Done n)
  = progress_lines (n + 1) (length texts) ++
    ["- fetched details of " +:+ pretty (n + Z.of_nat (length texts)) +:+ " probes."].
Proof.
  revert n texts. induction evs as [|[u q|p] evs IH]; intros n texts.
  - intros [= <-]. cbn [main_loop console length progress_lines app].
    by rewrite Z.add_0_r.
  - apply IH.
  - change (yields (Yield p :: evs)) with (p :: yields evs). cbn [mapM main_loop].
    rewrite bind_Ok. intros (l & -> & H). apply bind_Ok in H as (ls & Hls & [= <-]).
    cbn [console length progress_lines]. rewrite (IH _ _ Hls), <- app_assoc.
    by replace (n + Z.of_nat (S (length ls))) with (n + 1 + Z.of_nat (length ls)) by lia.
Qed.

(** The number of progress lines: one for every 500 rows. *)
Lemma progress_lines_length first count :
  1 ≤ first →
  Z.of_nat (length (progress_lines first count))
  = (first + Z.of_nat count - 1) / PAGE_SZ - (first - 1) / PAGE_SZ.
Proof.
  revert first. induction count as [|count IH]; intros first Hf.
  - cbn [progress_lines length]. rewrite Z.add_0_r. lia.
  - cbn [progress_lines]. rewrite length_app, Nat2Z.inj_add, IH by lia.
    replace (first + 1 + Z.of_nat count - 1) with (first + Z.of_nat (S count) - 1) by lia.
    replace (first + 1 - 1) with first by lia.
    assert (Z.of_nat (length (progress first)) = first / PAGE_SZ - (first - 1) / PAGE_SZ);
      [|lia].
    unfold progress, PAGE_SZ. destruct (first mod 500 =? 0) eqn:E; cbn [negb length].
    + apply Z.eqb_eq in E. Z.div_mod_to_equations. lia.
    + apply Z.eqb_neq in E. Z.div_mod_to_equations. lia.
Qed.

(** A run that ends well: when the paginator returns and, for every probe,
    the row is produced and its line can be encoded, the file holds the
    header and then, for each probe in the order of the probes, its row and
    a newline; the console gets one progress line for every 500 rows and at
    last the number of probes. *)
Theorem main_writes_every_row replies evs texts :
  get_probes replies = (evs, Done) →
  mapM (written repr_other upper_unicode) (yields evs) = Ok texts →
  let out := main repr_other upper_unicode replies in
  file out = header :: texts ∧
  Forall2 (λ p text, ∃ line, row repr_other upper_unicode p = Ok line ∧
                       text = line +:+ NL) (yields evs) texts ∧
  exit out = Done ∧
  console out
  = progress_lines 1 (length texts) ++
    ["- fetched details of " +:+ pretty (Z.of_nat (length texts)) +:+ " probes."] ∧
  length (console out) = S (length texts / 500).
Proof.
  intros Hrun Hrows out. unfold out, main. rewrite Hrun. cbn [file exit console].
  destruct (main_loop_rows repr_other upper_unicode evs Done 0 texts Hrows) as [-> ->].
  rewrite (main_loop_console _ _ _ Hrows). change (0 + 1) with 1. rewrite Z.add_0_l.
  split_and!; [done| |done|done|].
  - apply mapM_Ok in Hrows. eapply Forall2_impl; [exact Hrows|].
    intros p text H. unfold written in H. apply bind_Ok in H as (line & Hline & Hw).
    exists line. split; [done|]. unfold write in Hw.
    destruct (encodable (line +:+ NL)); [by injection Hw as <- | done].
  - rewrite length_app. cbn [length].
    pose proof (progress_lines_length 1 (length texts) ltac:(lia)) as Hlen.
    replace (1 + Z.of_nat (length texts) - 1) with (Z.of_nat (length texts)) in Hlen by lia.
    unfold PAGE_SZ in Hlen. rewrite Z.sub_diag, Zdiv_0_l, Z.sub_0_r in Hlen.
    assert (length (progress_lines 1 (length texts)) = (length texts / 500)%nat) as ->; [|lia].
    apply Nat2Z.inj. rewrite Hlen. by rewrite Nat2Z.inj_div.
Qed.

(** A line that cannot be encoded ends the run: when the row of a probe is
    produced but holds a surrogate code point, the write raises
    [UnicodeEncodeError]; the lines before it stay in the file and no line
    is written for that probe or after it. *)
Theorem unencodable_line_aborts replies evs1 p evs2 o texts line :
  get_probes replies = (evs1 ++ Yield p :: evs2, o) →
  mapM (written repr_other upper_unicode) (yields evs1) = Ok texts →
  row repr_other upper_unicode p = Ok line → encodable (line +:+ NL) = false →
  let out := main repr_other upper_unicode replies in
  file out = header :: texts ∧ exit out = Raised UnicodeEncodeError.
Proof.
  intros Hrun Hrows Hline Henc out. unfold out, main. rewrite Hrun. cbn [file exit].
  assert (Hw : written repr_other upper_unicode p = Raise UnicodeEncodeError).
  { unfold written. rewrite Hline. cbn [mbind result_mbind result_bind].
    unfold write. by rewrite Henc. }
  clear Hrun. generalize 0. revert texts Hrows.
  induction evs1 as [|[u q|p'] evs1 IH]; intros texts Hrows n.
  - injection Hrows as <-. cbn [app main_loop]. by rewrite Hw.
  - apply IH, Hrows.
  - change (yields (Yield p' :: evs1)) with (p' :: yields evs1) in Hrows.
    cbn [mapM] in Hrows. apply bind_Ok in Hrows as (l & Hl & H).
    apply bind_Ok in H as (ls & Hls & [= <-]).
    cbn [app main_loop]. rewrite Hl. cbn [file exit].
    destruct (IH _ Hls (n + 1)) as [[= ->] ->]. done.
Qed.

(** ** The rows *)

Lemma join_Raise sep items :
  ¬ Forall (λ v, ∃ s, v = VStr s) items → join sep items = Raise TypeError.
Proof.
  intros Hn. unfold join.
  assert (mapM (λ v, match v with VStr s => Ok s | _ => Raise TypeError end) items
          = Raise TypeError) as ->; [|done].
  induction items as [|v items IH]; [by destruct Hn|].
  cbn [mapM]. destruct v; try done. cbn [mbind result_mbind result_bind].
  rewrite IH; [done|]. intros Hall. apply Hn. constructor; [by eexists | done].
Qed.

(** When the row of a normalised probe is produced, and what is raised when
    it is not: the name of the status has to be a string, or [upper] is
    missing and [AttributeError] is raised; then every slug has to be a
    string, or the join raises [TypeError]. *)
Theorem row_needs_strings d p :
  Probe (VDict d) = Ok p →
  ∃ nm slugs,
    (st ← getattr p "status"; getattr st "name") = Ok nm ∧
    (ts ← getattr p "tags"; ts ← iter ts; mapM (λ t, getattr t "slug") ts) = Ok slugs ∧
    (is_Ok (row repr_other upper_unicode p) ↔
       (∃ s, nm = VStr s) ∧ Forall (λ v, ∃ s, v = VStr s) slugs) ∧
    ((∀ s, nm ≠ VStr s) → row repr_other upper_unicode p = Raise AttributeError) ∧
    ((∃ s, nm = VStr s) → ¬ Forall (λ v, ∃ s, v = VStr s) slugs →
       row repr_other upper_unicode p = Raise TypeError).
Proof.
  intros Hp.
  destruct (row_values_Probe upper_unicode _ _ Hp) as (x & y & nm & slugs & _ & Hnm & Hsl & Hvs).
  exists nm, slugs. split_and!; [done..| | |].
  - unfold row. rewrite Hvs. split.
    + intros [line H]. apply bind_Ok in H as (vs & H & _).
      apply bind_Ok in H as (name & Hup & H). apply bind_Ok in H as (tg & Hj & _).
      apply upper_Ok in Hup as (s & -> & _). split; [by eexists|].
      apply join_Ok in Hj as (ss & -> & _). clear. induction ss; constructor; eauto.
    + intros [[s ->] Hall].
      assert (∃ ss, slugs = VStr <$> ss) as [ss ->].
      { clear -Hall. induction Hall as [|v l [s' ->] _ [ss ->]]; [by exists []|].
        by exists (s' :: ss). }
      eexists. cbn [upper mbind result_mbind result_bind].
      assert (join TAG_SEP (VStr <$> ss) = Ok (concat_with TAG_SEP ss)) as ->
        by (apply join_Ok; by exists ss).
      done.
  - intros Hn. unfold row. rewrite Hvs. destruct nm; try done. by destruct (Hn s).
  - intros [s ->] Hn. unfold row. rewrite Hvs.
    cbn [upper mbind result_mbind result_bind]. by rewrite (join_Raise _ _ Hn).
Qed.

End Main.

(** ** The fields of a probe *)

(** Default, then overwrite: in a normalised probe every slot but [status],
    [geometry] and [tags] holds the value the record has under that key, or
    the empty string when the record has no such key. *)
Theorem Probe_slots_hold_the_record d p k :
  Probe (VDict d) = Ok p →
  k ∈ Probe_slots → k ≠ "status" → k ≠ "geometry" → k ≠ "tags" →
  getattr p k = Ok (match dict_get k d with Some v => v | None => VStr "" end).
Proof.
  intros H Hk ? ? ?.
  apply Probe_Ok in H as (o0 & s & g & ts & tags & -> & Ho & _).
  rewrite probe_scalar by done. by eapply filled_slot.
Qed.

(** The same for the two instances: the slots of the status hold the values
    of the status mapping of the record, the [type] slot of the geometry the
    type of its geometry mapping, or the empty string. *)
Theorem nested_slots_hold_the_record d p :
  Probe (VDict d) = Ok p →
  ∃ s g, getattr p "status" = Ok s ∧ getattr p "geometry" = Ok g ∧
    (∀ st k, dict_get "status" d = Some (VDict st) → st ≠ [] →
       k ∈ Status_slots → getattr s k = Ok (raw k st)) ∧
    (∀ ge, dict_get "geometry" d = Some (VDict ge) → ge ≠ [] →
       getattr g "type" = Ok (raw "type" ge)) ∧
    (unsupplied "geometry" d → getattr g "type" = Ok (VStr "")).
Proof.
  intros H. apply Probe_Ok in H as (o0 & s & g & ts & tags & -> & _ & Hs & Hg & _).
  exists s, g. rewrite probe_status, probe_geometry. split_and!; [done..| | |].
  - intros st k Hst Hne Hk. rewrite (raw_Some _ _ _ Hst) in Hs.
    apply construct_Ok in Hs as [[_ (kw & [= <-] & _ & Hs)]|[Ht _]];
      [|by destruct st].
    apply Status_init_Ok in Hs as (o & -> & Ho). by eapply filled_slot.
  - intros ge Hge Hne. rewrite (raw_Some _ _ _ Hge) in Hg.
    apply construct_Ok in Hg as [[_ (kw & [= <-] & _ & Hg)]|[Ht _]];
      [|by destruct ge].
    apply Geometry_init_Ok in Hg as (o & pt & -> & Ho & _).
    unfold getattr, slot. rewrite lookup_insert_ne by done.
    apply (filled_slot _ _ _ "type" Ho). slot_in.
  - intros Hu. apply unsupplied_raw in Hu.
    apply construct_Ok in Hg as [[Ht _]|[_ Hg]]; [congruence|].
    rewrite Geometry_init_default in Hg. by injection Hg as <-.
Qed.

(** The tags keep the order of the record: the list of the probe has one
    [Tag] for each mapping of the record, in the same order, with the name
    and the slug of that mapping. *)
Theorem tags_keep_their_order d p ts :
  Probe (VDict d) = Ok p → dict_get "tags" d = Some (VList ts) →
  ∃ tags, getattr p "tags" = Ok (VList tags) ∧
    Forall2 (λ t tg, ∃ n s, subscript t "name" = Ok n ∧
                       subscript t "slug" = Ok s ∧ tg = tag_of n s) ts tags.
Proof.
  intros H Hts. apply Probe_Ok in H as (o0 & s & g & ts' & tags & -> & _ & _ & _ & Hit & Htg).
  rewrite (raw_Some _ _ _ Hts) in Hit. injection Hit as <-.
  exists tags. rewrite probe_tags. split; [done|].
  apply mapM_Ok in Htg. eapply Forall2_impl; [exact Htg|].
  intros t tg Ht. apply make_tag_Ok in Ht as (td & n & sl & -> & Hn & Hsl & ->).
  exists n, sl. simpl. by rewrite Hn, Hsl.
Qed.

(** The lenient side of the normaliser: a record with recognised keys is
    normalised when its status is not supplied or is a mapping with
    recognised keys, its geometry is not supplied or is a mapping with
    recognised keys whose coordinates are not supplied or are a pair, and
    its tags are absent or a list of mappings with a name and a slug. *)
Theorem lenient_records_normalise d :
  Forall (λ k, k ∈ Probe_slots) d.*1 →
  unsupplied "status" d ∨
    (∃ st, dict_get "status" d = Some (VDict st) ∧
       Forall (λ k, k ∈ Status_slots) st.*1) →
  unsupplied "geometry" d ∨
    (∃ g, dict_get "geometry" d = Some (VDict g) ∧
       Forall (λ k, k ∈ Geometry_slots) g.*1 ∧
       (unsupplied "coordinates" g ∨
        ∃ x y, dict_get "coordinates" g = Some (VList [x; y]))) →
  dict_get "tags" d = None ∨
    (∃ ts, dict_get "tags" d = Some (VList ts) ∧ Forall complete_tag ts) →
  is_Ok (Probe (VDict d)).
Proof.
  intros Hd Hst Hge Htg.
  destruct (setattrs_total Probe_slots d (default_fill Probe_slots) Hd) as [o0 Ho0].
  assert (Hself : ∀ (slots : list string) (kw : list (string * value)),
            "self" ∉ slots → Forall (λ k, k ∈ slots) kw.*1 → "self" ∉ kw.*1).
  { intros slots kw Hs Hall Hin. rewrite Forall_forall in Hall. by apply Hs, Hall. }
  assert (is_Ok (construct Status_init (raw "status" d))) as [s Hs].
  { destruct (truthy (raw "status" d)) eqn:Ht.
    - destruct Hst as [Hu|(st & Hst & Hall)]; [apply unsupplied_raw in Hu; congruence|].
      rewrite (raw_Some _ _ _ Hst) in Ht |- *.
      destruct (setattrs_total Status_slots st (default_fill Status_slots) Hall) as [o Ho].
      exists (VObj CStatus o). apply construct_Ok. left. split; [done|].
      exists st. split_and!; [done| |by apply Status_init_Ok; exists o].
      apply (Hself Status_slots); [slot_in | done].
    - eexists. apply construct_Ok. right. split; [done | apply Status_init_default]. }
  assert (is_Ok (construct Geometry_init (raw "geometry" d))) as [g Hg].
  { destruct (truthy (raw "geometry" d)) eqn:Ht.
    - destruct Hge as [Hu|(ge & Hge & Hall & Hc)]; [apply unsupplied_raw in Hu; congruence|].
      rewrite (raw_Some _ _ _ Hge) in Ht |- *.
      destruct (setattrs_total Geometry_slots ge (default_fill Geometry_slots) Hall) as [o Ho].
      assert (∃ pt, coordinates_point (raw "coordinates" ge) = Ok pt) as [pt Hpt].
      { destruct Hc as [Hu|(x & y & Hxy)].
        - exists sentinel. by apply coordinates_point_false, unsupplied_raw.
        - exists (point_of x y). by rewrite (raw_Some _ _ _ Hxy). }
      exists (VObj CGeometry (<["coordinates":=pt]> o)). apply construct_Ok. left.
      split; [done|]. exists ge. split_and!; [done| |by apply Geometry_init_Ok; exists o, pt].
      apply (Hself Geometry_slots); [slot_in | done].
    - eexists. apply construct_Ok. right. split; [done | apply Geometry_init_default]. }
  assert (∃ ts tags, iter (raw "tags" d) = Ok ts ∧ mapM make_tag ts = Ok tags)
    as (ts & tags & Hit & Htags).
  { destruct Htg as [Hn|(ts & Hts & Hall)].
    - exists [], []. unfold raw. by rewrite Hn.
    - destruct (make_tags_complete _ Hall) as [tags Htags].
      exists ts, tags. by rewrite (raw_Some _ _ _ Hts). }
  eexists. apply Probe_Ok. by exists o0, s, g, ts, tags.
Qed.

(** The order of the keys of a record does not matter: a record with the
    same items in another order is normalised to the same probe. *)
Lemma dict_get_elem_of k v d :
  NoDup d.*1 → dict_get k d = Some v ↔ (k, v) ∈ d.
Proof.
  induction d as [|[k' w] d IH]; cbn [dict_get].
  - intros _. split; [done | by intros ?%elem_of_nil].
  - rewrite fmap_cons, NoDup_cons. cbn [fst]. intros [Hk Hd].
    rewrite elem_of_cons. destruct (dict_get k d) as [w'|] eqn:E.
    + split.
      * intros [= ->]. right. by apply IH.
      * intros [[= -> ->]|Hin].
        -- destruct Hk. by eapply dict_get_Some_elem.
        -- apply IH in Hin; congruence.
    + destruct (decide (k' = k)) as [->|Hne].
      * split; [intros [= ->]; by left|]. intros [[= ->]|Hin]; [done|].
        apply IH in Hin; congruence.
      * split; [done|]. intros [[= ? ?]|Hin]; [done|]. apply IH in Hin; congruence.
Qed.

Lemma dict_get_Permutation k d d' :
  d ≡ₚ d' → NoDup d.*1 → dict_get k d = dict_get k d'.
Proof.
  intros Hp Hnd. assert (Hnd' : NoDup d'.*1) by by rewrite <- Hp.
  destruct (dict_get k d) as [v|] eqn:E.
  - symmetry. apply dict_get_elem_of; [done|]. rewrite <- Hp.
    by apply dict_get_elem_of.
  - destruct (dict_get k d') as [v|] eqn:E'; [|done].
    apply dict_get_elem_of in E'; [|done]. rewrite <- Hp in E'.
    apply dict_get_elem_of in E'; [congruence | done].
Qed.

Theorem key_order_is_irrelevant d d' p :
  d ≡ₚ d' → NoDup d.*1 →
  Probe (VDict d) = Ok p → Probe (VDict d') = Ok p.
Proof.
  intros Hp Hnd H.
  assert (Hraw : ∀ k, raw k d' = raw k d).
  { intros k. unfold raw. by rewrite (dict_get_Permutation k d d'). }
  apply Probe_Ok in H as (o0 & s & g & ts & tags & -> & Ho & Hs & Hg & Hit & Htg).
  apply Probe_Ok. exists o0, s, g, ts, tags. rewrite !Hraw. split_and!; [done| |done..].
  apply setattrs_Ok in Ho as [Hall Hlook]. apply setattrs_Ok. split.
  - by rewrite <- Hp.
  - intros k. by rewrite Hlook, (dict_get_Permutation k d d').
Qed.

(** An unknown key inside the status or the geometry is as fatal as one in
    the record: the nested constructor raises and the record is not
    normalised. *)
Theorem nested_unknown_key_raises d st k :
  (dict_get "status" d = Some (VDict st) ∧ k ∈ st.*1 ∧ k ∉ Status_slots) ∨
  (dict_get "geometry" d = Some (VDict st) ∧ k ∈ st.*1 ∧ k ∉ Geometry_slots) →
  is_Raise (Probe (VDict d)).
Proof.
  intros Hcase. destruct (Probe (VDict d)) as [p|e] eqn:Hp; [|by eexists].
  apply Probe_Ok in Hp as (o0 & s & g & ts & tags & _ & _ & Hs & Hg & _).
  destruct Hcase as [(Hst & Hin & Hk)|(Hge & Hin & Hk)].
  - rewrite (raw_Some _ _ _ Hst) in Hs.
    apply construct_Ok in Hs as [[_ (kw & [= <-] & _ & Hs)]|[Ht _]].
    + apply Status_init_Ok in Hs as (o & _ & Ho).
      destruct (setattrs_unknown Status_slots st (default_fill Status_slots) k Hin Hk)
        as [e He]. congruence.
    + destruct st; [by apply elem_of_nil in Hin | done].
  - rewrite (raw_Some _ _ _ Hge) in Hg.
    apply construct_Ok in Hg as [[_ (kw & [= <-] & _ & Hg)]|[Ht _]].
    + apply Geometry_init_Ok in Hg as (o & pt & _ & Ho & _).
      destruct (setattrs_unknown Geometry_slots st (default_fill Geometry_slots) k Hin Hk)
        as [e He]. congruence.
    + destruct st; [by apply elem_of_nil in Hin | done].
Qed.

(** ** The further properties on the sample data *)

Lemma all_pages_in_order_witness :
  ∃ ps1 ps3,
    mapM Probe [VDict sample_no_coordinates] = Ok ps1 ∧
    mapM Probe [VDict [("id", VInt 6005)]] = Ok ps3 ∧
    yields (get_probes [Ok sample_page2; Ok sample_page3]).1 = ps1 ++ ps3 ∧
    length (requests (get_probes [Ok sample_page2; Ok sample_page3]).1) = 2%nat.
Proof.
  eexists _, _. split; [evaluated|]. split; [evaluated|].
  match goal with
  | |- yields _ = ?a ++ ?b ∧ _ =>
    pose (fs := [Fetched sample_page2 (VInt 3)
                   (VStr "https://atlas.ripe.net/api/v2/probes/?page=3")
                   [VDict sample_no_coordinates] a;
                 Fetched sample_page3 (VInt 3) VNone [VDict [("id", VInt 6005)]] b])
  end.
  assert (Hwf : Forall well_fetched fs).
  { repeat constructor; try (by apply sample_page); evaluated. }
  assert (Hl : linked fs) by (split; reflexivity).
  destruct (all_pages_in_order fs [] Hwf Hl) as (_ & Hy & Hr).
  split; [exact Hy | exact Hr].
Defined.

Lemma main_writes_every_row_witness :
  truthy (VInt 501) = true ∧
  ∀ ro uu,
    file (main ro uu [Ok sample_long_page]) = header :: sample_long_texts ∧
    console (main ro uu [Ok sample_long_page])
    = ["- #probes: 500"; "- fetched details of 501 probes."].
Proof.
  split; [reflexivity|]. intros ro uu.
  assert (Hend : (get_probes [Ok sample_long_page]).2 = Done) by evaluated.
  assert (Hrun : get_probes [Ok sample_long_page]
                 = ((get_probes [Ok sample_long_page]).1, Done)).
  { rewrite <- Hend. apply surjective_pairing. }
  assert (Hrows : mapM (written ro uu) (yields (get_probes [Ok sample_long_page]).1)
                  = Ok sample_long_texts) by evaluated.
  destruct (main_writes_every_row ro uu _ _ _ Hrun Hrows) as (Hf & _ & _ & Hc & _).
  split; [exact Hf|]. rewrite Hc. evaluated.
Defined.

Lemma unencodable_line_witness :
  encodable sample_surrogate = false ∧
  ∀ ro uu, file (main ro uu [Ok sample_surrogate_page])
           = [header; "6001,,,,,,,,-1111.0,-1111.0,0,0,,,," +:+ NL] ∧
           exit (main ro uu [Ok sample_surrogate_page]) = Raised UnicodeEncodeError.
Proof.
  split; [reflexivity|]. intros ro uu.
  pose (evs := (get_probes [Ok sample_surrogate_page]).1).
  assert (Hrun : get_probes [Ok sample_surrogate_page]
                 = (take 2 evs ++ Yield (default VNone (last (yields evs))) :: [], Done))
    by evaluated.
  apply (unencodable_line_aborts ro uu _ _ _ _ _ _
           ("6002,,,,,,," +:+ sample_surrogate +:+ ",-1111.0,-1111.0,0,0,,,,") Hrun);
    evaluated.
Defined.

Lemma row_needs_strings_witness :
  ∃ p, Probe (VDict [("status", VDict [("name", VNone)])]) = Ok p ∧
    ∀ ro uu, row ro uu p = Raise AttributeError.
Proof.
  eexists. split; [evaluated|]. intros ro uu.
  match goal with
  | |- row _ _ ?p = _ =>
    assert (Hp : Probe (VDict [("status", VDict [("name", VNone)])]) = Ok p)
      by evaluated
  end.
  destruct (row_needs_strings ro uu _ _ Hp) as (nm & slugs & Hnm & _ & _ & Hattr & _).
  apply Hattr. intros s ->. vm_compute in Hnm. discriminate Hnm.
Defined.

Lemma Probe_slots_hold_the_record_witness :
  ∃ p, Probe (VDict sample_no_coordinates) = Ok p ∧
    getattr p "id" = Ok (VInt 6003) ∧ getattr p "asn_v4" = Ok (VStr "").
Proof.
  eexists. split; [evaluated|].
  match goal with
  | |- getattr ?p _ = _ ∧ _ =>
    assert (Hp : Probe (VDict sample_no_coordinates) = Ok p) by evaluated
  end.
  split.
  - apply (Probe_slots_hold_the_record sample_no_coordinates _ "id" Hp); [slot_in | done..].
  - apply (Probe_slots_hold_the_record sample_no_coordinates _ "asn_v4" Hp); [slot_in | done..].
Defined.

Lemma nested_slots_hold_the_record_witness :
  ∃ p, Probe (VDict sample_record) = Ok p ∧
    ∃ s g, getattr p "status" = Ok s ∧ getattr p "geometry" = Ok g ∧
      getattr s "name" = Ok (VStr "Connected") ∧ getattr g "type" = Ok (VStr "Point").
Proof.
  eexists. split; [evaluated|].
  match goal with
  | |- ∃ s g, getattr ?p _ = _ ∧ _ =>
    assert (Hp : Probe (VDict sample_record) = Ok p) by evaluated
  end.
  destruct (nested_slots_hold_the_record sample_record _ Hp)
    as (s & g & Hs & Hg & Hst & Hty & _).
  exists s, g. split_and!; [exact Hs | exact Hg | |].
  - apply (Hst [("since", VStr "2016-05-23T04:42:00Z"); ("id", VInt 1);
                ("name", VStr "Connected")] "name"); [evaluated | done | slot_in].
  - apply (Hty [("type", VStr "Point");
                ("coordinates", VList [VFloat 10.0%float; VFloat 20.0%float])]);
      [evaluated | done].
Defined.

Lemma tags_keep_their_order_witness :
  ∃ p, Probe (VDict sample_record) = Ok p ∧
    ∃ tags, getattr p "tags" = Ok (VList tags) ∧ length tags = 2%nat.
Proof.
  eexists. split; [evaluated|].
  match goal with
  | |- ∃ tags, getattr ?p _ = _ ∧ _ =>
    assert (Hp : Probe (VDict sample_record) = Ok p) by evaluated
  end.
  destruct (tags_keep_their_order sample_record _ _ Hp eq_refl) as (tags & Ht & Hall).
  exists tags. split; [exact Ht|]. by apply Forall2_length in Hall.
Defined.

Lemma lenient_records_normalise_witness :
  unsupplied "status" sample_no_coordinates ∧
  is_Ok (Probe (VDict sample_no_coordinates)).
Proof.
  split; [exact I|].
  apply lenient_records_normalise.
  - repeat constructor; slot_in.
  - left. exact I.
  - right. exists [("type", VStr "Point")]. split_and!; [evaluated | |].
    + repeat constructor; slot_in.
    + left. exact I.
  - left. evaluated.
Defined.

Lemma key_order_is_irrelevant_witness :
  ∃ p, Probe (VDict sample_no_coordinates) = Ok p ∧
    Probe (VDict (reverse sample_no_coordinates)) = Ok p.
Proof.
  eexists. split; [evaluated|].
  apply (key_order_is_irrelevant sample_no_coordinates).
  - symmetry. apply reverse_Permutation.
  - apply (bool_decide_unpack _). vm_compute. exact I.
  - evaluated.
Defined.

Lemma nested_unknown_key_witness :
  "firmware" ∈ [("name", VStr "Connected"); ("firmware", VInt 5)].*1 ∧
  is_Raise (Probe (VDict [("status", VDict [("name", VStr "Connected");
                                            ("firmware", VInt 5)])])).
Proof.
  assert (Hin : "firmware" ∈ [("name", VStr "Connected"); ("firmware", VInt 5)].*1)
    by slot_in.
  split; [exact Hin|].
  apply (nested_unknown_key_raises _ [("name", VStr "Connected"); ("firmware", VInt 5)]
           "firmware").
  left. split_and!; [evaluated | exact Hin | slot_in].
Defined.
